(** * ResetPasswordComponent: the password-recovery workflow

    A shallow embedding of
    [src/app/features/unrestricted-features/reset-password/reset-password.component.ts].

    The component is an Angular class: three reactive forms, a handful of
    mutable fields, and methods that post HTTP requests and start or stop
    an rxjs [interval] subscription.  Its collaborators are modelled by
    what the component can see of them:

    - a form control stores its current value and the errors its
      validators reported when that value was set;
    - the HTTP service keeps the requests that have no response yet; a
      response runs the [next] or the [error] callback of its request;
    - the rxjs scheduler keeps the interval subscriptions that were not
      unsubscribed; only those can tick;
    - the snack bar and the router receive messages, recorded in order.

    Strings are JavaScript strings with [String.length] for [.length];
    [remainingTime] is a JavaScript number that only ever holds small
    integers, modelled in [Z]. *)

From Stdlib Require Import Ascii.
From stdpp Require Import base strings gmap list.

#[local] Set Warnings "-clear-no-such-hyp".

(** ** Angular reactive forms *)

(** An error bag: the keys a validator reported; [[]] stands for [null]. *)
Definition ValidationErrors := list string.
Definition ValidatorFn := string → ValidationErrors.

Module Validators.
(** [Validators.required]: fails on the empty input. *)
Definition required : ValidatorFn :=
  λ v, if decide (String.length v = 0) then ["required"] else [].

(** [Validators.minLength(n)]: passes on the empty input, fails on a
    shorter non-empty one. *)
Definition minLength (n : nat) : ValidatorFn :=
  λ v, if decide (String.length v = 0) then []
       else if decide (String.length v < n) then ["minlength"] else [].
End Validators.

Record FormControl := mkControl {
  value : string;
  errors : ValidationErrors
}.

(** [control.invalid] *)
Definition control_invalid (c : FormControl) : bool :=
  bool_decide (errors c ≠ []).

(** [new FormControl(v, validators)] and [control.setValue(v)] both run the
    control's validators on the new value. *)
Definition setValue (validators : list ValidatorFn) (v : string) : FormControl :=
  {| value := v; errors := concat ((λ f, f v) <$> validators) |}.

(** The validator library the component imports from
    [service/utility/validator]; [matchPasswordValidator] receives the
    current value of the sibling control it is given by name. *)
Record ValidatorLib := {
  emailValidator : ValidatorFn;
  passwordValidator : ValidatorFn;
  matchPasswordValidator : string → ValidatorFn
}.

(** ** The component *)

Record EmailForm := { email : FormControl }.
Record OtpForm := { otp : FormControl }.
Record ResetPasswordForm := {
  password : FormControl;
  confirmPassword : FormControl
}.

(** [form.invalid]: some control of the group is invalid. *)
Definition emailForm_invalid (f : EmailForm) : bool := control_invalid (email f).
Definition otpForm_invalid (f : OtpForm) : bool := control_invalid (otp f).
Definition resetPasswordForm_invalid (f : ResetPasswordForm) : bool :=
  control_invalid (password f) || control_invalid (confirmPassword f).

Record Component := mkComponent {
  emailForm : EmailForm;
  otpForm : OtpForm;
  resetPasswordForm : ResetPasswordForm;
  isOtpSent : bool;
  isOtpVerified : bool;
  otpTimer : Z;
  remainingTime : Z;
  resendOtpDisabled : bool;
  otpSubscription : option nat;      (* [Subscription | null] *)
  passwordVisible : bool;
  confirmPasswordVisible : bool;
  isLoadingOtp : bool
}.

(** Requests of [ResetPasswordService]. *)
Inductive Request :=
| SendOtp (email : string)
| VerifyOtp (email otp : string)
| ResetPassword (email newPassword confirmPassword : string).

(** Calls on the snack bar and the router. *)
Inductive Effect :=
| SnackBarOpen (message action : string) (duration : Z)
| RouterNavigate (path : string).

(** The component together with its collaborators. *)
Record World := mkWorld {
  this : Component;
  subscriptions : gset nat;          (* interval subscriptions still subscribed *)
  nextSubscription : nat;
  inFlight : gmap nat Request;       (* requests without a response yet *)
  nextRequest : nat;
  effects : list Effect              (* oldest first *)
}.

(** *** Field assignment *)

Definition upd (f : Component → Component) (w : World) : World :=
  mkWorld (f (this w)) (subscriptions w) (nextSubscription w)
          (inFlight w) (nextRequest w) (effects w).

Definition set_emailForm (x : EmailForm) (c : Component) : Component :=
  mkComponent x (otpForm c) (resetPasswordForm c) (isOtpSent c)
    (isOtpVerified c) (otpTimer c) (remainingTime c) (resendOtpDisabled c)
    (otpSubscription c) (passwordVisible c) (confirmPasswordVisible c)
    (isLoadingOtp c).
Definition set_otpForm (x : OtpForm) (c : Component) : Component :=
  mkComponent (emailForm c) x (resetPasswordForm c) (isOtpSent c)
    (isOtpVerified c) (otpTimer c) (remainingTime c) (resendOtpDisabled c)
    (otpSubscription c) (passwordVisible c) (confirmPasswordVisible c)
    (isLoadingOtp c).
Definition set_resetPasswordForm (x : ResetPasswordForm) (c : Component) : Component :=
  mkComponent (emailForm c) (otpForm c) x (isOtpSent c)
    (isOtpVerified c) (otpTimer c) (remainingTime c) (resendOtpDisabled c)
    (otpSubscription c) (passwordVisible c) (confirmPasswordVisible c)
    (isLoadingOtp c).
Definition set_isOtpSent (x : bool) (c : Component) : Component :=
  mkComponent (emailForm c) (otpForm c) (resetPasswordForm c) x
    (isOtpVerified c) (otpTimer c) (remainingTime c) (resendOtpDisabled c)
    (otpSubscription c) (passwordVisible c) (confirmPasswordVisible c)
    (isLoadingOtp c).
Definition set_isOtpVerified (x : bool) (c : Component) : Component :=
  mkComponent (emailForm c) (otpForm c) (resetPasswordForm c) (isOtpSent c)
    x (otpTimer c) (remainingTime c) (resendOtpDisabled c)
    (otpSubscription c) (passwordVisible c) (confirmPasswordVisible c)
    (isLoadingOtp c).
Definition set_remainingTime (x : Z) (c : Component) : Component :=
  mkComponent (emailForm c) (otpForm c) (resetPasswordForm c) (isOtpSent c)
    (isOtpVerified c) (otpTimer c) x (resendOtpDisabled c)
    (otpSubscription c) (passwordVisible c) (confirmPasswordVisible c)
    (isLoadingOtp c).
Definition set_resendOtpDisabled (x : bool) (c : Component) : Component :=
  mkComponent (emailForm c) (otpForm c) (resetPasswordForm c) (isOtpSent c)
    (isOtpVerified c) (otpTimer c) (remainingTime c) x
    (otpSubscription c) (passwordVisible c) (confirmPasswordVisible c)
    (isLoadingOtp c).
Definition set_otpSubscription (x : option nat) (c : Component) : Component :=
  mkComponent (emailForm c) (otpForm c) (resetPasswordForm c) (isOtpSent c)
    (isOtpVerified c) (otpTimer c) (remainingTime c) (resendOtpDisabled c)
    x (passwordVisible c) (confirmPasswordVisible c)
    (isLoadingOtp c).
Definition set_passwordVisible (x : bool) (c : Component) : Component :=
  mkComponent (emailForm c) (otpForm c) (resetPasswordForm c) (isOtpSent c)
    (isOtpVerified c) (otpTimer c) (remainingTime c) (resendOtpDisabled c)
    (otpSubscription c) x (confirmPasswordVisible c)
    (isLoadingOtp c).
Definition set_confirmPasswordVisible (x : bool) (c : Component) : Component :=
  mkComponent (emailForm c) (otpForm c) (resetPasswordForm c) (isOtpSent c)
    (isOtpVerified c) (otpTimer c) (remainingTime c) (resendOtpDisabled c)
    (otpSubscription c) (passwordVisible c) x
    (isLoadingOtp c).
Definition set_isLoadingOtp (x : bool) (c : Component) : Component :=
  mkComponent (emailForm c) (otpForm c) (resetPasswordForm c) (isOtpSent c)
    (isOtpVerified c) (otpTimer c) (remainingTime c) (resendOtpDisabled c)
    (otpSubscription c) (passwordVisible c) (confirmPasswordVisible c)
    x.

(** *** Collaborators *)

(** A method body is a command on the world; [c1 ;; c2] runs [c1] first. *)
Definition Cmd := World → World.
Definition seq (c1 c2 : Cmd) : Cmd := λ w, c2 (c1 w).
Notation "c1 ;; c2" := (seq c1 c2) (at level 100, c2 at level 200, right associativity).

(** [this.snackBar.open(message, action, { duration })] *)
Definition snackBar_open (message action : string) (duration : Z) : Cmd :=
  λ w, mkWorld (this w) (subscriptions w) (nextSubscription w)
         (inFlight w) (nextRequest w)
         (effects w ++ [SnackBarOpen message action duration]).

(** [this.router.navigate([path])] *)
Definition router_navigate (path : string) : Cmd :=
  λ w, mkWorld (this w) (subscriptions w) (nextSubscription w)
         (inFlight w) (nextRequest w) (effects w ++ [RouterNavigate path]).

(** [this.resetPasswordService.<request>.subscribe({ next, error })]: the
    request is posted; its callbacks run when the response arrives. *)
Definition http_subscribe (r : Request) : Cmd :=
  λ w, mkWorld (this w) (subscriptions w) (nextSubscription w)
         (<[nextRequest w := r]> (inFlight w)) (S (nextRequest w)) (effects w).

(** [interval(1000).subscribe(callback)]: a new subscription, returned to
    the caller. *)
Definition interval_subscribe (w : World) : nat * World :=
  (nextSubscription w,
   mkWorld (this w) ({[nextSubscription w]} ∪ subscriptions w)
     (S (nextSubscription w)) (inFlight w) (nextRequest w) (effects w)).

(** [subscription.unsubscribe()] *)
Definition unsubscribe (sub : nat) : Cmd :=
  λ w, mkWorld (this w) (subscriptions w ∖ {[sub]}) (nextSubscription w)
         (inFlight w) (nextRequest w) (effects w).

(** ** Methods *)

Definition stopOtpTimer : Cmd :=
  λ w, match otpSubscription (this w) with
       | Some sub => (unsubscribe sub ;; upd (set_otpSubscription None)) w
       | None => w
       end.

(** The callback given to [interval(1000).subscribe] in [startOtpTimer]. *)
Definition otpTimer_tick : Cmd :=
  λ w, if decide (remainingTime (this w) > 0)%Z
       then upd (set_remainingTime (remainingTime (this w) - 1)) w
       else (stopOtpTimer ;; upd (set_resendOtpDisabled false)) w.

Definition startOtpTimer : Cmd :=
  stopOtpTimer ;;
  (λ w, upd (set_remainingTime (otpTimer (this w))) w) ;;
  (λ w, let '(sub, w') := interval_subscribe w in
        upd (set_otpSubscription (Some sub)) w').

(** The [next] and [error] callbacks of [sendOtp]. *)
Definition sendOtp_next (response_data : string) : Cmd :=
  upd (set_isOtpSent true) ;;
  upd (set_isLoadingOtp false) ;;
  upd (set_resendOtpDisabled true) ;;
  startOtpTimer ;;
  snackBar_open response_data "Close" 3000.

Definition sendOtp_error (error : string) : Cmd :=
  upd (set_isLoadingOtp false) ;;
  snackBar_open "Error sending OTP. Please try again." "Close" 3000.

Definition sendOtp : Cmd :=
  λ w, if emailForm_invalid (emailForm (this w)) then w
       else (upd (set_isLoadingOtp true) ;;
             (λ w, http_subscribe (SendOtp (value (email (emailForm (this w))))) w)) w.

(** The [next] and [error] callbacks of [verifyOtp]. *)
Definition verifyOtp_next (response_data : string) : Cmd :=
  upd (set_isOtpVerified true) ;;
  stopOtpTimer ;;
  snackBar_open response_data "Close" 3000.

Definition verifyOtp_error (error : string) : Cmd :=
  snackBar_open "Invalid OTP. Please try again." "Close" 3000.

Definition verifyOtp : Cmd :=
  λ w, http_subscribe (VerifyOtp (value (email (emailForm (this w))))
                                 (value (otp (otpForm (this w))))) w.

(** The [next] and [error] callbacks of [resetPassword]. *)
Definition resetPassword_next (response_data : string) : Cmd :=
  snackBar_open response_data "Close" 3000 ;;
  router_navigate "/login".

Definition resetPassword_error (error : string) : Cmd :=
  snackBar_open "Error resetting password. Please try again." "Close" 3000.

Definition resetPassword : Cmd :=
  λ w, if resetPasswordForm_invalid (resetPasswordForm (this w)) then w
       else http_subscribe
              (ResetPassword (value (email (emailForm (this w))))
                 (value (password (resetPasswordForm (this w))))
                 (value (confirmPassword (resetPasswordForm (this w))))) w.

Definition handleBackNavigation : Cmd :=
  λ w, if isOtpVerified (this w)
       then (upd (set_isOtpVerified false) ;; upd (set_isOtpSent true)) w
       else if isOtpSent (this w)
       then upd (set_isOtpSent false) w
       else router_navigate "/login" w.

Definition togglePasswordVisibility : Cmd :=
  λ w, upd (set_passwordVisible (negb (passwordVisible (this w)))) w.

Definition toggleConfirmPasswordVisibility : Cmd :=
  λ w, upd (set_confirmPasswordVisible (negb (confirmPasswordVisible (this w)))) w.

Definition ngOnDestroy : Cmd := stopOtpTimer.

(** The step the three flags encode, read the way [handleBackNavigation]
    reads them. *)
Inductive WorkflowStep := EnteringEmail | AwaitingOtp | OtpVerified.

Definition currentStep (c : Component) : WorkflowStep :=
  if isOtpVerified c then OtpVerified
  else if isOtpSent c then AwaitingOtp
  else EnteringEmail.

(** ** The validator library, from the specification *)

Module SpecValidators.
Definition chars (s : string) : list ascii := String.list_ascii_of_string s.

Definition in_range (lo hi : nat) (c : ascii) : bool :=
  (lo <=? nat_of_ascii c) && (nat_of_ascii c <=? hi).
Definition is_upper : ascii → bool := in_range 65 90.
Definition is_lower : ascii → bool := in_range 97 122.
Definition is_digit : ascii → bool := in_range 48 57.
Definition is_special (c : ascii) : bool :=
  negb (is_upper c || is_lower c || is_digit c || Ascii.is_space c).
Definition is_at (c : ascii) : bool := bool_decide (c = "@"%char).
Definition is_dot (c : ascii) : bool := bool_decide (c = "."%char).

(** The input cut at its first [@]. *)
Fixpoint split_at (cs : list ascii) : option (list ascii * list ascii) :=
  match cs with
  | [] => None
  | c :: cs =>
      if is_at c then Some ([], cs)
      else '(local, domain) ← split_at cs; Some (c :: local, domain)
  end.

(** Modelled from the spec: [emailValidator] of
    [service/utility/validator] is not among the sources.  Section 4.1
    asks for a "standard email-shape check"; it is read here as: no
    whitespace, exactly one [@] with something before it, and after it a
    dot that is neither the first nor the last character. *)
Definition isValidEmail (s : string) : bool :=
  let cs := chars s in
  forallb (λ c, negb (Ascii.is_space c)) cs
  && match split_at cs with
     | Some (local, domain) =>
         negb (bool_decide (local = []))
         && forallb (λ c, negb (is_at c)) domain
         && existsb is_dot (drop 1 (take (length domain - 1) domain))
     | None => false
     end.

(** Modelled from the spec: [passwordValidator] of
    [service/utility/validator] is not among the sources.  Section 4.1
    lists the rules (an uppercase letter, a lowercase letter, a special
    character, no whitespace) and asks that every violated rule be
    reported; the keys are the ones [getErrorMessage] reads.  The length
    rule is [Validators.minLength(8)] in the component itself. *)
Definition isStrongPassword (s : string) : ValidationErrors :=
  let cs := chars s in
  (if existsb is_upper cs then [] else ["upperCase"])
  ++ (if existsb is_lower cs then [] else ["lowerCase"])
  ++ (if existsb is_special cs then [] else ["specialCharacter"])
  ++ (if existsb Ascii.is_space cs then ["noSpaces"] else []).

(** Modelled from the spec: [matchPasswordValidator] of
    [service/utility/validator] is not among the sources.  Section 4.1:
    structural equality of the two fields. *)
Definition matches (a b : string) : bool := bool_decide (a = b).

Definition lib : ValidatorLib := {|
  emailValidator := λ v, if isValidEmail v then [] else ["email"];
  passwordValidator := isStrongPassword;
  matchPasswordValidator := λ other v, if matches other v then [] else ["mismatch"]
|}.
End SpecValidators.

(** ** The component in its environment *)

Inductive Field := EmailField | OtpField | PasswordField | ConfirmPasswordField.

Inductive Method :=
| M_sendOtp | M_verifyOtp | M_resetPassword | M_handleBackNavigation
| M_togglePasswordVisibility | M_toggleConfirmPasswordVisibility
| M_ngOnDestroy.

(** What can happen to a component: the user types into a field or
    triggers a method, a posted request gets its response, or a live
    interval subscription ticks. *)
Inductive Event :=
| UserInput (f : Field) (v : string)
| UserCall (m : Method)
| HttpNext (request : nat) (response_data : string)
| HttpError (request : nat) (error : string)
| IntervalTick (sub : nat).

Definition call (m : Method) : Cmd :=
  match m with
  | M_sendOtp => sendOtp
  | M_verifyOtp => verifyOtp
  | M_resetPassword => resetPassword
  | M_handleBackNavigation => handleBackNavigation
  | M_togglePasswordVisibility => togglePasswordVisibility
  | M_toggleConfirmPasswordVisibility => toggleConfirmPasswordVisibility
  | M_ngOnDestroy => ngOnDestroy
  end.

Definition on_next (r : Request) : string → Cmd :=
  match r with
  | SendOtp _ => sendOtp_next
  | VerifyOtp _ _ => verifyOtp_next
  | ResetPassword _ _ _ => resetPassword_next
  end.

Definition on_error (r : Request) : string → Cmd :=
  match r with
  | SendOtp _ => sendOtp_error
  | VerifyOtp _ _ => verifyOtp_error
  | ResetPassword _ _ _ => resetPassword_error
  end.

(** The response of a request has arrived: it is no longer in flight. *)
Definition http_complete (request : nat) : Cmd :=
  λ w, mkWorld (this w) (subscriptions w) (nextSubscription w)
         (delete request (inFlight w)) (nextRequest w) (effects w).

Section Workflow.
Variable V : ValidatorLib.

(** The validators the constructor attaches to each control. *)
Definition email_validators : list ValidatorFn :=
  [Validators.required; emailValidator V].
Definition otp_validators : list ValidatorFn :=
  [Validators.required; Validators.minLength 6].
Definition password_validators : list ValidatorFn :=
  [Validators.required; Validators.minLength 8; passwordValidator V].
Definition confirmPassword_validators (password_value : string) : list ValidatorFn :=
  [Validators.required; matchPasswordValidator V password_value].

(** The component as its constructor and field initialisers leave it. *)
Definition constructor : World := {|
  this := {|
    emailForm := {| email := setValue email_validators "" |};
    otpForm := {| otp := setValue otp_validators "" |};
    resetPasswordForm := {|
      password := setValue password_validators "";
      confirmPassword := setValue (confirmPassword_validators "") "" |};
    isOtpSent := false;
    isOtpVerified := false;
    otpTimer := 60;
    remainingTime := 60;
    resendOtpDisabled := false;
    otpSubscription := None;
    passwordVisible := false;
    confirmPasswordVisible := false;
    isLoadingOtp := false |};
  subscriptions := ∅;
  nextSubscription := 0;
  inFlight := ∅;
  nextRequest := 0;
  effects := [] |}.

(** The user types [v] into a field: the control takes the value and
    re-runs its own validators.  Typing into [password] does not re-run
    the validators of [confirmPassword]. *)
Definition input (f : Field) (v : string) : Cmd :=
  λ w, match f with
       | EmailField =>
           upd (set_emailForm {| email := setValue email_validators v |}) w
       | OtpField =>
           upd (set_otpForm {| otp := setValue otp_validators v |}) w
       | PasswordField =>
           upd (set_resetPasswordForm {|
                  password := setValue password_validators v;
                  confirmPassword := confirmPassword (resetPasswordForm (this w)) |}) w
       | ConfirmPasswordField =>
           upd (set_resetPasswordForm {|
                  password := password (resetPasswordForm (this w));
                  confirmPassword :=
                    setValue (confirmPassword_validators
                                (value (password (resetPasswordForm (this w))))) v |}) w
       end.

(** One event; [None] when the event cannot happen in [w] (a response
    for a request that is not in flight, a tick of a subscription that
    is not live). *)
Definition step (e : Event) (w : World) : option World :=
  match e with
  | UserInput f v => Some (input f v w)
  | UserCall m => Some (call m w)
  | HttpNext request response_data =>
      r ← inFlight w !! request;
      Some ((http_complete request ;; on_next r response_data) w)
  | HttpError request error =>
      r ← inFlight w !! request;
      Some ((http_complete request ;; on_error r error) w)
  | IntervalTick sub =>
      if decide (sub ∈ subscriptions w) then Some (otpTimer_tick w) else None
  end.

Fixpoint exec (es : list Event) (w : World) : option World :=
  match es with
  | [] => Some w
  | e :: es => w' ← step e w; exec es w'
  end.

Definition reachable (w : World) : Prop :=
  ∃ es, exec es constructor = Some w.

(** The control of the e-mail form carries the errors of the value it
    holds. *)
Definition email_validated (w : World) : Prop :=
  email (emailForm (this w))
  = setValue email_validators (value (email (emailForm (this w)))).

End Workflow.

(** ** Invariants of the timer *)

(** The live interval subscriptions are exactly the one the component
    holds in [otpSubscription], if any. *)
Definition live_is_current (w : World) : Prop :=
  subscriptions w = from_option singleton ∅ (otpSubscription (this w)).

(** Subscription identifiers are handed out in increasing order. *)
Definition allocated (w : World) : Prop :=
  ∀ sub, sub ∈ subscriptions w → sub < nextSubscription w.

Record timer_inv (w : World) : Prop := {
  inv_live : live_is_current w;
  inv_allocated : allocated w;
  inv_resend : is_Some (otpSubscription (this w)) → resendOtpDisabled (this w) = true;
  inv_otpTimer : otpTimer (this w) = 60%Z;
  inv_remaining : (0 ≤ remainingTime (this w) ≤ 60)%Z
}.

(** A timer run that was started and is not live any more. *)
Definition cancelled (sub : nat) (w : World) : Prop :=
  sub < nextSubscription w ∧ sub ∉ subscriptions w.

(** The fields the workflow shows: step, countdown, resend flag and the
    values of the four fields. *)
Definition observable (c : Component) : WorkflowStep * Z * bool * (string * string * string * string) :=
  (currentStep c, remainingTime c, resendOtpDisabled c,
   (value (email (emailForm c)), value (otp (otpForm c)),
    value (password (resetPasswordForm c)),
    value (confirmPassword (resetPasswordForm c)))).

(** The messages of the three [error] callbacks. *)
Definition generic_messages : list string :=
  ["Error sending OTP. Please try again.";
   "Invalid OTP. Please try again.";
   "Error resetting password. Please try again."].

(** ** Scenarios *)

Module Scenario.
Definition V : ValidatorLib := SpecValidators.lib.

(** The world after a run of events from the constructor. *)
Definition world_after (es : list Event) : World :=
  default (constructor V) (exec V es (constructor V)).

(** The user asks for a code for [user@example.com]; the service sends it. *)
Definition otp_requested : list Event :=
  [UserInput EmailField "user@example.com"; UserCall M_sendOtp;
   HttpNext 0 "OTP sent"].

(** ... then types a three-character code. *)
Definition short_otp_typed : list Event :=
  otp_requested ++ [UserInput OtpField "123"].

(** ... or has a code verified by the service. *)
Definition otp_verified : list Event :=
  otp_requested ++ [UserInput OtpField "123456"; UserCall M_verifyOtp;
                    HttpNext 1 "OTP verified"].

(** ... or lets the countdown run for sixty ticks. *)
Definition countdown_at_zero : list Event :=
  otp_requested ++ replicate 60 (IntervalTick 0).

(** ... or types a code and asks for its verification: the state before
    the call, and a run in which the countdown ticks once before the
    service answers with a failure. *)
Definition otp_typed : list Event :=
  otp_requested ++ [UserInput OtpField "000000"].
Definition verify_fails_after_tick : list Event :=
  [UserCall M_verifyOtp; IntervalTick 0; HttpError 1 "400 Bad Request"].

(** ... or asks for the code again while the countdown runs; the component
    is torn down before the service answers. *)
Definition resend_in_flight : list Event :=
  otp_requested ++ [UserCall M_sendOtp].
Definition answered_after_teardown : list Event :=
  resend_in_flight ++ [UserCall M_ngOnDestroy; HttpNext 1 "OTP sent again"].

(** On the first screen, the user fills in the new-password form. *)
Definition password_typed_first : list Event :=
  [UserInput PasswordField "Abc12345!";
   UserInput ConfirmPasswordField "Abc12345!"].
End Scenario.

(** ** The password message *)

(** [errors[key]] is set. *)
Definition has_error (key : string) (errs : ValidationErrors) : bool :=
  bool_decide (key ∈ errs).

(** [getErrorMessage()].  [touched] is the [touched] flag of the password
    control: Angular raises it when the field loses focus, which the model
    of a control does not record, so the caller passes it. *)
Definition getErrorMessage (touched : bool) (c : Component) : string :=
  let control := password (resetPasswordForm c) in
  if touched && control_invalid control then
    if has_error "required" (errors control) then "Password is required."
    else if has_error "minlength" (errors control) then
      "Password must be at least 8 characters long."
    else if has_error "upperCase" (errors control) then
      "Password must contain at least one uppercase letter."
    else if has_error "lowerCase" (errors control) then
      "Password must contain at least one lowercase letter."
    else if has_error "specialCharacter" (errors control) then
      "Password must include at least one special character."
    else if has_error "noSpaces" (errors control) then
      "Password cannot contain spaces."
    else ""
  else "".

(** ** Invariants of the forms and of the requests *)

(** The password control carries the errors of the value it holds. *)
Definition password_validated (V : ValidatorLib) (w : World) : Prop :=
  password (resetPasswordForm (this w))
  = setValue (password_validators V)
      (value (password (resetPasswordForm (this w)))).

(** What the guards of [sendOtp] and [resetPassword] let through. *)
Definition request_validated (V : ValidatorLib) (r : Request) : Prop :=
  match r with
  | SendOtp email => email ≠ "" ∧ emailValidator V email = []
  | VerifyOtp _ _ => True
  | ResetPassword _ newPassword _ =>
      8 ≤ String.length newPassword ∧ passwordValidator V newPassword = []
  end.

(** Request identifiers are handed out in increasing order. *)
Definition requests_fresh (w : World) : Prop :=
  ∀ rid, is_Some (inFlight w !! rid) → rid < nextRequest w.

Record request_inv (V : ValidatorLib) (w : World) : Prop := {
  rinv_email : email_validated V w;
  rinv_password : password_validated V w;
  rinv_fresh : requests_fresh w;
  rinv_posted : ∀ rid r, inFlight w !! rid = Some r → request_validated V r;
  rinv_loading :
    isLoadingOtp (this w) = true →
    ∃ rid email, inFlight w !! rid = Some (SendOtp email)
}.

(** A request of [sendOtp]. *)
Definition is_SendOtp (r : Request) : Prop :=
  match r with SendOtp _ => True | _ => False end.
Definition is_VerifyOtp (r : Request) : Prop :=
  match r with VerifyOtp _ _ => True | _ => False end.
Definition is_ResetPassword (r : Request) : Prop :=
  match r with ResetPassword _ _ _ => True | _ => False end.

(** ** More scenarios *)

Module Scenes.
(** On the first screen, the user fills in the new-password form with a
    password of seven characters. *)
Definition short_password_typed : list Event :=
  [UserInput PasswordField "Abc123!";
   UserInput ConfirmPasswordField "Abc123!"].
End Scenes.

Create Rewrite HintDb timer_closed.

(** Proof step: unfold the callbacks and methods down to the timer
    commands, and rewrite those with the equations of [timer_closed]. *)
Ltac wsimpl :=
  unfold call, on_next, on_error, sendOtp_next, sendOtp_error, sendOtp,
    verifyOtp_next, verifyOtp_error, verifyOtp, resetPassword_next,
    resetPassword_error, resetPassword, handleBackNavigation,
    togglePasswordVisibility, toggleConfirmPasswordVisibility, ngOnDestroy,
    seq;
  autorewrite with timer_closed;
  cbn.

(** * Lemmas *)

Example email_ok : SpecValidators.isValidEmail "user@example.com" = true.
Proof. reflexivity. Qed.
Example email_bad1 : SpecValidators.isValidEmail "user@example" = false.
Proof. reflexivity. Qed.
Example email_bad2 : SpecValidators.isValidEmail "userexample.com" = false.
Proof. reflexivity. Qed.
Example email_bad3 : SpecValidators.isValidEmail "" = false.
Proof. reflexivity. Qed.
Example pw_ok : SpecValidators.isStrongPassword "Abc12345!" = [].
Proof. reflexivity. Qed.
Example pw_bad : SpecValidators.isStrongPassword "abc 12345" = ["upperCase"; "specialCharacter"; "noSpaces"].
Proof. reflexivity. Qed.

(** The scenarios of the specification, run on the model. *)

Example scenario_otp_requested :
  (λ w, (currentStep (this w), remainingTime (this w), resendOtpDisabled (this w)))
    <$> exec Scenario.V Scenario.otp_requested (constructor Scenario.V)
  = Some (AwaitingOtp, 60%Z, true).
Proof. vm_compute. reflexivity. Qed.

Example scenario_timer_expires :
  (λ w, (currentStep (this w), remainingTime (this w), resendOtpDisabled (this w),
         otpSubscription (this w)))
    <$> exec Scenario.V (Scenario.countdown_at_zero ++ [IntervalTick 0])
             (constructor Scenario.V)
  = Some (AwaitingOtp, 0%Z, false, None).
Proof. vm_compute. reflexivity. Qed.

Example scenario_otp_verified :
  (λ w, (currentStep (this w), remainingTime (this w), otpSubscription (this w)))
    <$> exec Scenario.V Scenario.otp_verified (constructor Scenario.V)
  = Some (OtpVerified, 60%Z, None).
Proof. vm_compute. reflexivity. Qed.

Example scenario_password_reset :
  effects
    <$> exec Scenario.V
          (Scenario.otp_verified
           ++ Scenario.password_typed_first
           ++ [UserCall M_resetPassword; HttpNext 2 "Password changed"])
          (constructor Scenario.V)
  = Some [SnackBarOpen "OTP sent" "Close" 3000;
          SnackBarOpen "OTP verified" "Close" 3000;
          SnackBarOpen "Password changed" "Close" 3000;
          RouterNavigate "/login"].
Proof. vm_compute. reflexivity. Qed.

(** ** The timer commands in closed form *)

Lemma set_otpSubscription_id c :
  otpSubscription c = None → set_otpSubscription None c = c.
Proof. destruct c; cbn; by intros ->. Qed.

Lemma stopOtpTimer_unfold w :
  stopOtpTimer w
  = mkWorld (set_otpSubscription None (this w))
      (subscriptions w ∖ from_option singleton ∅ (otpSubscription (this w)))
      (nextSubscription w) (inFlight w) (nextRequest w) (effects w).
Proof.
  unfold stopOtpTimer. destruct (otpSubscription (this w)) as [sub|] eqn:E.
  - reflexivity.
  - rewrite set_otpSubscription_id by done. cbn.
    rewrite difference_empty_L. by destruct w.
Qed.

Lemma startOtpTimer_unfold w :
  startOtpTimer w
  = mkWorld (set_otpSubscription (Some (nextSubscription w))
               (set_remainingTime (otpTimer (this w)) (this w)))
      ({[nextSubscription w]}
       ∪ subscriptions w ∖ from_option singleton ∅ (otpSubscription (this w)))
      (S (nextSubscription w)) (inFlight w) (nextRequest w) (effects w).
Proof. unfold startOtpTimer, seq. by rewrite stopOtpTimer_unfold. Qed.

Lemma otpTimer_tick_unfold w :
  otpTimer_tick w
  = if decide (remainingTime (this w) > 0)%Z
    then upd (set_remainingTime (remainingTime (this w) - 1)) w
    else mkWorld (set_resendOtpDisabled false (set_otpSubscription None (this w)))
           (subscriptions w ∖ from_option singleton ∅ (otpSubscription (this w)))
           (nextSubscription w) (inFlight w) (nextRequest w) (effects w).
Proof.
  unfold otpTimer_tick, seq. case_decide; [done|]. by rewrite stopOtpTimer_unfold.
Qed.

#[global] Arguments stopOtpTimer : simpl never.
#[global] Arguments startOtpTimer : simpl never.
#[global] Arguments otpTimer_tick : simpl never.

#[global] Hint Rewrite stopOtpTimer_unfold startOtpTimer_unfold
  otpTimer_tick_unfold : timer_closed.

Section TimerInvariant.
Variable V : ValidatorLib.

Lemma timer_inv_constructor : timer_inv (constructor V).
Proof.
  split; cbn; try done.
Qed.

(** The invariant reads the component, the live subscriptions and the
    allocation counter only. *)
Lemma timer_inv_ext w w' :
  this w' = this w → subscriptions w' = subscriptions w →
  nextSubscription w' = nextSubscription w →
  timer_inv w → timer_inv w'.
Proof.
  intros Ht Hs Hn [Hl Ha Hr Ho Hm].
  split; unfold live_is_current, allocated in *; by rewrite ?Ht, ?Hs, ?Hn.
Qed.

Lemma timer_inv_snackBar_open message action duration w :
  timer_inv w → timer_inv (snackBar_open message action duration w).
Proof. by apply timer_inv_ext. Qed.

Lemma timer_inv_stopOtpTimer w :
  timer_inv w → timer_inv (stopOtpTimer w) ∧ otpSubscription (this (stopOtpTimer w)) = None.
Proof.
  intros [Hl Ha Hr Ht Hm]. unfold live_is_current, allocated in *.
  rewrite stopOtpTimer_unfold. split; [|done].
  split; unfold live_is_current, allocated; cbn; try done.
  - rewrite Hl. set_solver.
  - intros i Hi. apply Ha. set_solver.
Qed.

Lemma timer_inv_startOtpTimer w :
  timer_inv w → resendOtpDisabled (this w) = true → timer_inv (startOtpTimer w).
Proof.
  intros Hw Hr. destruct (timer_inv_stopOtpTimer w Hw) as [[Hl Ha _ Ht Hm] Hn].
  assert (resendOtpDisabled (this (stopOtpTimer w)) = true) as Hr'.
  { by rewrite stopOtpTimer_unfold. }
  unfold startOtpTimer, seq. set (w1 := stopOtpTimer w) in *.
  unfold live_is_current, allocated in *. rewrite Hn in Hl. cbn in Hl.
  split; unfold live_is_current, allocated; cbn; try done.
  - rewrite Hl. set_solver.
  - intros i. rewrite Hl. set_solver by lia.
  - rewrite Ht. lia.
Qed.

Lemma timer_inv_tick w : timer_inv w → timer_inv (otpTimer_tick w).
Proof.
  intros Hw. unfold otpTimer_tick. case_decide as Hpos.
  - destruct Hw as [Hl Ha Hr Ht Hm]. split; cbn; try done. lia.
  - unfold seq. destruct (timer_inv_stopOtpTimer w Hw) as [[Hl Ha _ Ht Hm] Hn].
    split; cbn; try done. rewrite Hn. by intros [? [=]].
Qed.

Lemma timer_inv_step e w w' :
  timer_inv w → step V e w = Some w' → timer_inv w'.
Proof.
  intros Hw Hs. destruct e as [f v|m|rid data|rid err|sub]; cbn in Hs.
  - injection Hs as <-. destruct Hw. by destruct f; split.
  - injection Hs as <-. destruct m; cbn.
    + destruct Hw. unfold sendOtp. by case_match; split.
    + destruct Hw. by split.
    + destruct Hw. unfold resetPassword. by case_match; split.
    + destruct Hw. unfold handleBackNavigation. by repeat case_match; split.
    + destruct Hw. by split.
    + destruct Hw. by split.
    + by apply timer_inv_stopOtpTimer.
  - destruct (inFlight w !! rid) as [r|]; [|done]. injection Hs as <-.
    set (w0 := http_complete rid w).
    assert (timer_inv w0) as Hw0 by (destruct Hw; by split).
    destruct r; cbn.
    + unfold sendOtp_next, seq.
      set (w1 := upd (set_resendOtpDisabled true)
                   (upd (set_isLoadingOtp false) (upd (set_isOtpSent true) w0))).
      apply timer_inv_snackBar_open, timer_inv_startOtpTimer; [|done].
      destruct Hw0. by split.
    + unfold verifyOtp_next, seq.
      set (w1 := upd (set_isOtpVerified true) w0).
      assert (timer_inv w1) as Hw1 by (destruct Hw0; by split).
      by apply timer_inv_snackBar_open, timer_inv_stopOtpTimer.
    + destruct Hw0. by split.
  - destruct (inFlight w !! rid) as [r|]; [|done]. injection Hs as <-.
    destruct Hw. by destruct r; split.
  - case_decide; [|done]. injection Hs as <-. by apply timer_inv_tick.
Qed.

Lemma timer_inv_exec es : ∀ w w',
  timer_inv w → exec V es w = Some w' → timer_inv w'.
Proof.
  induction es as [|e es IH]; intros w w' Hw He; cbn in He.
  - by injection He as <-.
  - destruct (step V e w) as [w1|] eqn:Hs; [|done].
    eapply IH; [|exact He]. by eapply timer_inv_step.
Qed.

Lemma reachable_timer_inv w : reachable V w → timer_inv w.
Proof. intros [es He]. eapply timer_inv_exec; [apply timer_inv_constructor|done]. Qed.

End TimerInvariant.

(** ** Cancelled timer runs stay cancelled *)

Section Cancellation.
Variable V : ValidatorLib.

(** A step never revives a subscription: what is live afterwards was
    live before, or was allocated by the step. *)
Lemma step_subscriptions e w w' :
  step V e w = Some w' →
  nextSubscription w ≤ nextSubscription w' ∧
  ∀ sub, sub ∈ subscriptions w' →
         sub ∈ subscriptions w ∨ nextSubscription w ≤ sub.
Proof.
  intros Hs.
  destruct e as [f v|m|rid data|rid err|sub0]; cbn in Hs.
  - injection Hs as <-. destruct f; cbn; auto.
  - injection Hs as <-.
    destruct m; wsimpl; repeat case_match; cbn; (split; [lia | set_solver]).
  - destruct (inFlight w !! rid) as [r|]; [|done]. injection Hs as <-.
    destruct r; wsimpl; (split; [lia | set_solver by lia]).
  - destruct (inFlight w !! rid) as [r|]; [|done]. injection Hs as <-.
    destruct r; wsimpl; auto.
  - case_decide; [|done]. injection Hs as <-.
    wsimpl; case_decide; cbn; (split; [lia | set_solver]).
Qed.

Lemma cancelled_step sub e w w' :
  cancelled sub w → step V e w = Some w' → cancelled sub w'.
Proof.
  intros [Hlt Hnot] Hs. destruct (step_subscriptions e w w' Hs) as [Hle Hsub].
  split; [lia|]. intros Hin. destruct (Hsub sub Hin); [done|lia].
Qed.

Lemma cancelled_exec sub es : ∀ w w',
  cancelled sub w → exec V es w = Some w' → cancelled sub w'.
Proof.
  induction es as [|e es IH]; intros w w' Hc He; cbn in He.
  - by injection He as <-.
  - destruct (step V e w) as [w1|] eqn:Hs; [|done].
    eapply IH; [|exact He]. by eapply cancelled_step.
Qed.

Lemma cancelled_no_tick sub w :
  cancelled sub w → step V (IntervalTick sub) w = None.
Proof. intros [_ Hnot]. cbn. by case_decide. Qed.

(** Whatever happens after a run is cancelled, it does not tick. *)
Lemma cancelled_never_ticks sub es w w' :
  cancelled sub w → exec V es w = Some w' →
  step V (IntervalTick sub) w' = None.
Proof. intros Hc He. eapply cancelled_no_tick, cancelled_exec; eauto. Qed.

(** Under the timer invariant every run but the current one is cancelled. *)
Lemma timer_inv_cancelled sub w :
  timer_inv w → sub < nextSubscription w →
  otpSubscription (this w) ≠ Some sub → cancelled sub w.
Proof.
  intros [Hl _ _ _ _] Hlt Hne. split; [done|].
  rewrite Hl. destruct (otpSubscription (this w)); cbn; set_solver.
Qed.

End Cancellation.

(** ** The control of the e-mail form is validated against its value *)

Section Forms.
Variable V : ValidatorLib.

Lemma email_validated_step e w w' :
  email_validated V w → step V e w = Some w' → email_validated V w'.
Proof.
  unfold email_validated. intros Hw Hs.
  destruct e as [f v|m|rid data|rid err|sub0]; cbn in Hs.
  - injection Hs as <-. by destruct f.
  - injection Hs as <-.
    destruct m; wsimpl; repeat case_match; cbn; done.
  - destruct (inFlight w !! rid) as [r|]; [|done]. injection Hs as <-.
    destruct r; wsimpl; done.
  - destruct (inFlight w !! rid) as [r|]; [|done]. injection Hs as <-.
    destruct r; wsimpl; done.
  - case_decide; [|done]. injection Hs as <-.
    wsimpl; case_decide; cbn; done.
Qed.

Lemma reachable_email_validated w : reachable V w → email_validated V w.
Proof.
  intros [es He]. revert He.
  assert (email_validated V (constructor V)) as H0 by done.
  revert H0. generalize (constructor V).
  induction es as [|e es IH]; intros w0 H0 He; cbn in He.
  - by injection He as <-.
  - destruct (step V e w0) as [w1|] eqn:Hs; [|done].
    eapply IH; [|exact He]. by eapply email_validated_step.
Qed.

(** A value the e-mail validator rejects makes the form invalid. *)
Lemma email_rejected_invalid v :
  emailValidator V v ≠ [] →
  emailForm_invalid {| email := setValue (email_validators V) v |} = true.
Proof.
  intros Hbad. unfold emailForm_invalid, control_invalid. cbn.
  apply bool_decide_eq_true. rewrite app_nil_r.
  intros [_ ?]%app_eq_nil. done.
Qed.

End Forms.

(** * The claims *)

(** ** C1: [verifyOtp] has no guard *)

(** C1.  The claim asks that [verifyOtp()] post nothing while the OTP field
    is absent or shorter than six characters.  The method posts
    [verifyOtp(email, otp)] unconditionally: after a code was requested for
    [user@example.com] and the user typed ["123"], the OTP form is invalid
    and a call of [verifyOtp()] still puts the request
    [VerifyOtp "user@example.com" "123"] in flight. *)
Theorem C1_verifyOtp_posts_short_otp :
  ∃ w, exec Scenario.V Scenario.short_otp_typed (constructor Scenario.V) = Some w
       ∧ value (otp (otpForm (this w))) = "123"
       ∧ otpForm_invalid (otpForm (this w)) = true
       ∧ inFlight w !! nextRequest w = None
       ∧ inFlight (verifyOtp w) !! nextRequest w
         = Some (VerifyOtp "user@example.com" "123").
Proof.
  eexists. split; [vm_compute; reflexivity|].
  repeat split; vm_compute; reflexivity.
Qed.

(** ** C2: the resend flag and the timer *)

(** C2, as stated, fails.  After a verified code the timer is stopped and
    [resendOtpDisabled] is still set; and when sixty ticks have brought
    [remainingTime] to 0 the flag is still set and the timer still runs: it
    is the next tick that clears the flag. *)
Lemma C2_counterexample :
  (∃ w, exec Scenario.V Scenario.otp_verified (constructor Scenario.V) = Some w
        ∧ resendOtpDisabled (this w) = true
        ∧ otpSubscription (this w) = None
        ∧ subscriptions w = ∅)
  ∧ (∃ w w', exec Scenario.V Scenario.countdown_at_zero (constructor Scenario.V) = Some w
        ∧ remainingTime (this w) = 0%Z
        ∧ resendOtpDisabled (this w) = true
        ∧ otpSubscription (this w) = Some 0
        ∧ step Scenario.V (IntervalTick 0) w = Some w'
        ∧ resendOtpDisabled (this w') = false).
Proof.
  split.
  - eexists. split; [vm_compute; reflexivity|].
    repeat split; vm_compute; reflexivity.
  - eexists. eexists. split; [vm_compute; reflexivity|].
    repeat split; vm_compute; reflexivity.
Qed.

(** [resendOtpDisabled] is cleared by nothing but a tick that finds
    [remainingTime] not positive. *)
Lemma resend_cleared_by_tick V e w w' :
  step V e w = Some w' →
  resendOtpDisabled (this w) = true → resendOtpDisabled (this w') = false →
  ∃ sub, e = IntervalTick sub ∧ ¬ (remainingTime (this w) > 0)%Z.
Proof.
  intros Hs Hon Hoff.
  destruct e as [f v|m|rid data|rid err|sub0]; cbn in Hs.
  - injection Hs as <-. destruct f; cbn in Hoff; congruence.
  - injection Hs as <-. revert Hoff.
    destruct m; wsimpl; repeat case_match; cbn; congruence.
  - destruct (inFlight w !! rid) as [r|]; [|done]. injection Hs as <-.
    revert Hoff. destruct r; wsimpl; congruence.
  - destruct (inFlight w !! rid) as [r|]; [|done]. injection Hs as <-.
    revert Hoff. destruct r; wsimpl; congruence.
  - case_decide; [|done]. injection Hs as <-. exists sub0. split; [done|].
    revert Hoff. wsimpl. case_decide; cbn; [congruence|done].
Qed.

(** C2, amended.  In every reachable state an active timer implies
    [resendOtpDisabled]; a tick that finds [remainingTime] positive
    decrements it and leaves the flag and the timer alone; a tick that finds
    it at 0 stops the timer and clears the flag; and no other event clears
    the flag. *)
Theorem C2_resend_disabled_while_timer_runs V w :
  reachable V w →
  (is_Some (otpSubscription (this w)) → resendOtpDisabled (this w) = true)
  ∧ (∀ sub w', step V (IntervalTick sub) w = Some w' →
       if decide (remainingTime (this w) = 0)%Z
       then resendOtpDisabled (this w') = false
            ∧ otpSubscription (this w') = None
            ∧ subscriptions w' = ∅
       else remainingTime (this w') = (remainingTime (this w) - 1)%Z
            ∧ resendOtpDisabled (this w') = resendOtpDisabled (this w)
            ∧ otpSubscription (this w') = otpSubscription (this w)
            ∧ subscriptions w' = subscriptions w)
  ∧ (∀ e w', step V e w = Some w' →
       resendOtpDisabled (this w) = true → resendOtpDisabled (this w') = false →
       ∃ sub, e = IntervalTick sub ∧ remainingTime (this w) = 0%Z).
Proof.
  intros Hw. destruct (reachable_timer_inv V w Hw) as [Hl Ha Hr Ht Hm].
  split; [done|]. split.
  - intros sub w' Hs. cbn in Hs. case_decide as Hin; [|done]. injection Hs as <-.
    rewrite otpTimer_tick_unfold.
    destruct (decide (remainingTime (this w) = 0)%Z) as [Hz|Hz].
    + rewrite decide_False by lia. cbn. repeat split.
      rewrite Hl. destruct (otpSubscription (this w)); cbn; set_solver.
    + rewrite decide_True by lia. done.
  - intros e w' Hs Hon Hoff.
    destruct (resend_cleared_by_tick V e w w' Hs Hon Hoff) as (sub & -> & Hz).
    exists sub. split; [done|lia].
Qed.

Lemma C2_witness :
  reachable Scenario.V (Scenario.world_after Scenario.countdown_at_zero)
  ∧ resendOtpDisabled (this (Scenario.world_after Scenario.countdown_at_zero)) = true.
Proof.
  assert (reachable Scenario.V (Scenario.world_after Scenario.countdown_at_zero)) as Hr.
  { exists Scenario.countdown_at_zero. vm_compute. reflexivity. }
  split; [exact Hr|].
  destruct (C2_resend_disabled_while_timer_runs Scenario.V _ Hr) as [Hon _].
  apply Hon. vm_compute. eauto.
Defined.

(** ** C3: an invalid e-mail stops [sendOtp] *)

(** C3.  Whenever the e-mail field holds a string the e-mail validator
    rejects, [sendOtp()] returns at its guard: no request is posted, no
    message is shown and no field changes (the world is the same).  This
    holds right after the string is typed, and in every reachable state
    whose e-mail field holds it. *)
Theorem C3_invalid_email_sendOtp_noop V v w :
  emailValidator V v ≠ [] →
  sendOtp (input V EmailField v w) = input V EmailField v w
  ∧ (reachable V w → value (email (emailForm (this w))) = v → sendOtp w = w).
Proof.
  intros Hbad. split.
  - unfold sendOtp. cbn. by rewrite email_rejected_invalid.
  - intros Hw Hv. unfold sendOtp.
    pose proof (reachable_email_validated V w Hw) as He.
    unfold email_validated in He. rewrite Hv in He.
    assert (emailForm (this w) = {| email := setValue (email_validators V) v |}) as ->.
    { destruct (emailForm (this w)); cbn in *; by rewrite He. }
    by rewrite email_rejected_invalid.
Qed.

Lemma C3_witness :
  emailValidator Scenario.V "user@example" ≠ []
  ∧ sendOtp (input Scenario.V EmailField "user@example" (constructor Scenario.V))
    = input Scenario.V EmailField "user@example" (constructor Scenario.V).
Proof.
  assert (emailValidator Scenario.V "user@example" ≠ []) as Hbad
    by (vm_compute; discriminate).
  split; [exact Hbad|].
  exact (proj1 (C3_invalid_email_sendOtp_noop Scenario.V "user@example"
                  (constructor Scenario.V) Hbad)).
Defined.

(** ** C4: resending *)

(** C4, as stated, fails: [sendOtp()] is the only way to ask for a code,
    again or for the first time, and it does not read [resendOtpDisabled].
    Right after a code was sent the flag is set, and [sendOtp()] still
    posts a second request and raises [isLoadingOtp]. *)
Lemma C4_counterexample :
  ∃ w, exec Scenario.V Scenario.otp_requested (constructor Scenario.V) = Some w
       ∧ resendOtpDisabled (this w) = true
       ∧ inFlight w !! nextRequest w = None
       ∧ inFlight (sendOtp w) !! nextRequest w = Some (SendOtp "user@example.com")
       ∧ isLoadingOtp (this w) = false
       ∧ isLoadingOtp (this (sendOtp w)) = true.
Proof.
  eexists. split; [vm_compute; reflexivity|].
  repeat split; vm_compute; reflexivity.
Qed.

(** C4, amended.  Asking again is [sendOtp()] itself, guarded by the
    validity of the e-mail form only: with an invalid form it does nothing;
    with a valid form it raises [isLoadingOtp] and posts the request; in
    both cases what it does is the same whatever [resendOtpDisabled] holds.
    When the service answers, the timer is restarted: the flag is set,
    [remainingTime] is back at 60 and the new run is the only live one. *)
Theorem C4_resend_is_sendOtp V w :
  reachable V w →
  (sendOtp w
   = if emailForm_invalid (emailForm (this w)) then w
     else http_subscribe (SendOtp (value (email (emailForm (this w)))))
            (upd (set_isLoadingOtp true) w))
  ∧ (∀ b, sendOtp (upd (set_resendOtpDisabled b) w)
          = upd (set_resendOtpDisabled b) (sendOtp w))
  ∧ (∀ response_data,
       let w' := sendOtp_next response_data w in
       currentStep (this w') = (if isOtpVerified (this w) then OtpVerified else AwaitingOtp)
       ∧ resendOtpDisabled (this w') = true
       ∧ remainingTime (this w') = 60%Z
       ∧ otpSubscription (this w') = Some (nextSubscription w)
       ∧ subscriptions w' = {[nextSubscription w]}).
Proof.
  intros Hw. destruct (reachable_timer_inv V w Hw) as [Hl Ha Hr Ht Hm].
  split; [|split].
  - unfold sendOtp, seq. by case_match.
  - intros b. unfold sendOtp, seq. cbn. by case_match.
  - intros data w'. subst w'. wsimpl. unfold currentStep. cbn.
    repeat split; [done|].
    rewrite Hl. destruct (otpSubscription (this w)); cbn; set_solver.
Qed.

Lemma C4_witness :
  reachable Scenario.V (Scenario.world_after Scenario.otp_requested)
  ∧ ∀ b, sendOtp (upd (set_resendOtpDisabled b) (Scenario.world_after Scenario.otp_requested))
         = upd (set_resendOtpDisabled b) (sendOtp (Scenario.world_after Scenario.otp_requested)).
Proof.
  assert (reachable Scenario.V (Scenario.world_after Scenario.otp_requested)) as Hr.
  { exists Scenario.otp_requested. vm_compute. reflexivity. }
  split; [exact Hr|].
  destruct (C4_resend_is_sendOtp Scenario.V _ Hr) as (_ & Hb & _). exact Hb.
Defined.

(** ** C5: [resetPassword] and the step *)

(** C5, as stated, fails: [resetPassword()] does not read the step.  On
    the first screen, with the new-password form filled in, it posts the
    reset request. *)
Lemma C5_counterexample :
  ∃ w, exec Scenario.V Scenario.password_typed_first (constructor Scenario.V) = Some w
       ∧ currentStep (this w) = EnteringEmail
       ∧ inFlight w !! nextRequest w = None
       ∧ inFlight (resetPassword w) !! nextRequest w
         = Some (ResetPassword "" "Abc12345!" "Abc12345!").
Proof.
  eexists. split; [vm_compute; reflexivity|].
  repeat split; vm_compute; reflexivity.
Qed.

(** C5, amended.  [resetPassword()] is guarded by the validity of the
    new-password form alone: with an invalid form it posts nothing and
    changes nothing, in every step; with a valid form it posts
    [resetPassword(email, password, confirmPassword)], in every step; it
    never changes a field of the component, and what it does is the same
    whatever the step flags hold. *)
Theorem C5_resetPassword_guard w :
  (resetPassword w
   = if resetPasswordForm_invalid (resetPasswordForm (this w)) then w
     else http_subscribe
            (ResetPassword (value (email (emailForm (this w))))
               (value (password (resetPasswordForm (this w))))
               (value (confirmPassword (resetPasswordForm (this w))))) w)
  ∧ this (resetPassword w) = this w
  ∧ effects (resetPassword w) = effects w
  ∧ (∀ sent verified,
       resetPassword (upd (set_isOtpVerified verified) (upd (set_isOtpSent sent) w))
       = upd (set_isOtpVerified verified) (upd (set_isOtpSent sent) (resetPassword w))).
Proof.
  unfold resetPassword. repeat split.
  - by case_match.
  - by case_match.
  - intros sent verified. cbn. by case_match.
Qed.

(** ** C6, C7, C10: going back *)

(** C6, as stated, fails: [handleBackNavigation()] does not touch the
    timer.  While the code is awaited and the countdown runs, going back
    leaves the subscription in place, live, and able to tick. *)
Lemma C6_counterexample :
  ∃ w, exec Scenario.V Scenario.otp_requested (constructor Scenario.V) = Some w
       ∧ currentStep (this w) = AwaitingOtp
       ∧ otpSubscription (this w) = Some 0
       ∧ currentStep (this (handleBackNavigation w)) = EnteringEmail
       ∧ otpSubscription (this (handleBackNavigation w)) = Some 0
       ∧ 0 ∈ subscriptions (handleBackNavigation w)
       ∧ is_Some (step Scenario.V (IntervalTick 0) (handleBackNavigation w)).
Proof.
  eexists. split; [vm_compute; reflexivity|].
  repeat split; try (vm_compute; reflexivity).
  vm_compute. eauto.
Qed.

(** C6, amended.  [handleBackNavigation()] never stops the timer: the
    subscription the component holds and the set of live subscriptions are
    the same after it, in every step, so a run that could tick before can
    tick after. *)
Theorem C6_back_keeps_timer V w :
  otpSubscription (this (handleBackNavigation w)) = otpSubscription (this w)
  ∧ subscriptions (handleBackNavigation w) = subscriptions w
  ∧ ∀ sub, is_Some (step V (IntervalTick sub) (handleBackNavigation w))
           ↔ is_Some (step V (IntervalTick sub) w).
Proof.
  assert (subscriptions (handleBackNavigation w) = subscriptions w) as Hs
    by (unfold handleBackNavigation; by repeat case_match).
  repeat split.
  - unfold handleBackNavigation; by repeat case_match.
  - done.
  - cbn. rewrite Hs. by case_decide.
  - cbn. rewrite Hs. by case_decide.
Qed.

(** C7.  From the step [OtpVerified], going back three times moves to
    [AwaitingOtp], then to [EnteringEmail], both without a message to the
    router or the snack bar, and then navigates to [/login] and leaves the
    component as it is. *)
Theorem C7_back_sequence w :
  currentStep (this w) = OtpVerified →
  let w1 := handleBackNavigation w in
  let w2 := handleBackNavigation w1 in
  let w3 := handleBackNavigation w2 in
  currentStep (this w1) = AwaitingOtp ∧ effects w1 = effects w
  ∧ currentStep (this w2) = EnteringEmail ∧ effects w2 = effects w
  ∧ effects w3 = effects w ++ [RouterNavigate "/login"] ∧ this w3 = this w2.
Proof.
  unfold currentStep, handleBackNavigation, seq.
  destruct (isOtpVerified (this w)) eqn:Hv; [|by repeat case_match].
  intros _. cbn. done.
Qed.

Lemma C7_witness :
  currentStep (this (Scenario.world_after Scenario.otp_verified)) = OtpVerified
  ∧ currentStep (this (handleBackNavigation
                         (Scenario.world_after Scenario.otp_verified))) = AwaitingOtp.
Proof.
  assert (currentStep (this (Scenario.world_after Scenario.otp_verified)) = OtpVerified)
    as Hstep by (vm_compute; reflexivity).
  split; [exact Hstep|].
  exact (proj1 (C7_back_sequence _ Hstep)).
Defined.

(** C10.  [handleBackNavigation()] changes nothing of the component but
    the two step flags: the three forms (the e-mail, the code, the two
    passwords), [remainingTime] and [resendOtpDisabled] are as before, and so
    is every other field; nothing is posted and no subscription changes. *)
Theorem C10_back_frame w :
  let w' := handleBackNavigation w in
  emailForm (this w') = emailForm (this w)
  ∧ otpForm (this w') = otpForm (this w)
  ∧ resetPasswordForm (this w') = resetPasswordForm (this w)
  ∧ remainingTime (this w') = remainingTime (this w)
  ∧ resendOtpDisabled (this w') = resendOtpDisabled (this w)
  ∧ (∃ sent verified,
       this w' = set_isOtpSent sent (set_isOtpVerified verified (this w)))
  ∧ inFlight w' = inFlight w
  ∧ subscriptions w' = subscriptions w.
Proof.
  unfold handleBackNavigation, seq.
  destruct (isOtpVerified (this w)) eqn:Hv; [|destruct (isOtpSent (this w)) eqn:Hs];
    cbn; repeat split.
  - by exists true, false.
  - exists false, false. destruct (this w); cbn in *; by subst.
  - exists false, false. destruct (this w); cbn in *; by subst.
Qed.

(** ** C8: one countdown at a time *)

(** The run the component holds is cancelled by each of the three commands
    that stop it. *)
Lemma stop_cancels sub (stop : Cmd) w :
  timer_inv w → otpSubscription (this w) = Some sub →
  stop = stopOtpTimer ∨ stop = startOtpTimer ∨ stop = ngOnDestroy →
  cancelled sub (stop w).
Proof.
  intros [Hl Ha _ _ _] Hsub Hstop.
  assert (sub < nextSubscription w) as Hlt.
  { apply Ha. rewrite Hl, Hsub. cbn. set_solver. }
  unfold cancelled.
  destruct Hstop as [->|[->| ->]]; unfold ngOnDestroy;
    rewrite ?stopOtpTimer_unfold, ?startOtpTimer_unfold; cbn; rewrite Hsub; cbn.
  - split; [done|set_solver].
  - split; [lia|]. set_solver by lia.
  - split; [done|set_solver].
Qed.

(** C8.  In every reachable state:
    - at most one interval subscription is live;
    - once [stopOtpTimer()] has returned, be it called on its own, at the
      start of [startOtpTimer()] or by [ngOnDestroy()], the run that was
      active never ticks again, whatever happens afterwards;
    - more generally no run other than the one the component holds ever
      ticks again;
    - [startOtpTimer()] leaves [remainingTime] at 60 and its new run as the
      only live one. *)
Theorem C8_one_live_timer V w :
  reachable V w →
  (∀ i j, i ∈ subscriptions w → j ∈ subscriptions w → i = j)
  ∧ (∀ sub (stop : Cmd) es w',
       otpSubscription (this w) = Some sub →
       stop = stopOtpTimer ∨ stop = startOtpTimer ∨ stop = ngOnDestroy →
       exec V es (stop w) = Some w' →
       step V (IntervalTick sub) w' = None)
  ∧ (∀ sub es w',
       sub < nextSubscription w → otpSubscription (this w) ≠ Some sub →
       exec V es w = Some w' →
       step V (IntervalTick sub) w' = None)
  ∧ (let w' := startOtpTimer w in
     remainingTime (this w') = 60%Z
     ∧ otpSubscription (this w') = Some (nextSubscription w)
     ∧ subscriptions w' = {[nextSubscription w]}).
Proof.
  intros Hw. pose proof (reachable_timer_inv V w Hw) as Hinv.
  split; [|split; [|split]].
  - destruct Hinv as [Hl _ _ _ _]. intros i j. rewrite Hl.
    destruct (otpSubscription (this w)); cbn; set_solver.
  - intros sub stop es w' Hsub Hstop He.
    eapply cancelled_never_ticks; [|exact He]. by apply stop_cancels.
  - intros sub es w' Hlt Hne He.
    eapply cancelled_never_ticks; [|exact He]. by apply timer_inv_cancelled.
  - destruct Hinv as [Hl _ _ Ht _]. rewrite startOtpTimer_unfold. cbn.
    repeat split; [done|]. rewrite Hl.
    destruct (otpSubscription (this w)); cbn; set_solver.
Qed.

Lemma C8_witness :
  reachable Scenario.V (Scenario.world_after Scenario.resend_in_flight)
  ∧ otpSubscription (this (Scenario.world_after Scenario.resend_in_flight)) = Some 0
  ∧ exec Scenario.V [HttpNext 1 "OTP sent again"]
         (ngOnDestroy (Scenario.world_after Scenario.resend_in_flight))
    = Some (Scenario.world_after Scenario.answered_after_teardown)
  ∧ step Scenario.V (IntervalTick 0)
         (Scenario.world_after Scenario.answered_after_teardown)
    = None.
Proof.
  assert (reachable Scenario.V (Scenario.world_after Scenario.resend_in_flight)) as Hr.
  { exists Scenario.resend_in_flight. vm_compute. reflexivity. }
  assert (otpSubscription (this (Scenario.world_after Scenario.resend_in_flight)) = Some 0)
    as Hsub by (vm_compute; reflexivity).
  assert (exec Scenario.V [HttpNext 1 "OTP sent again"]
            (ngOnDestroy (Scenario.world_after Scenario.resend_in_flight))
          = Some (Scenario.world_after Scenario.answered_after_teardown)) as He
    by (vm_compute; reflexivity).
  split; [exact Hr|]. split; [exact Hsub|]. split; [exact He|].
  destruct (C8_one_live_timer Scenario.V _ Hr) as (_ & Hstop & _).
  exact (Hstop 0 ngOnDestroy _ _ Hsub (or_intror (or_intror eq_refl)) He).
Defined.

(** ** C9: a failed request *)

(** The countdown runs independently of the requests.  A code is typed
    with 60 seconds left and [verifyOtp()] is called; the timer ticks once;
    the service answers with a failure.  The workflow then shows what the
    tick alone would have left: the call and its failure add nothing. *)
Example tick_between_call_and_failure :
  ∃ w0 w1 w2,
    exec Scenario.V Scenario.otp_typed (constructor Scenario.V) = Some w0
    ∧ exec Scenario.V Scenario.verify_fails_after_tick w0 = Some w1
    ∧ step Scenario.V (IntervalTick 0) w0 = Some w2
    ∧ remainingTime (this w0) = 60%Z
    ∧ remainingTime (this w1) = 59%Z
    ∧ observable (this w1) = observable (this w2).
Proof.
  eexists. eexists. eexists. split; [vm_compute; reflexivity|].
  split; [vm_compute; reflexivity|].
  split; [vm_compute; reflexivity|].
  repeat split; vm_compute; reflexivity.
Qed.

(** C9.  When a request fails, the [error] callback leaves the step,
    [remainingTime], [resendOtpDisabled] and the four field values as
    they were when the failure arrived, and shows one of three fixed
    messages, whatever the error was.  Starting any of the three requests
    changes none of these either, so the failed call leaves the workflow
    in the state it had before the call: no step is advanced, and what
    differs can only come from another event, such as a tick of the
    countdown, not from the call. *)
Theorem C9_failure_keeps_state V w request error w1 :
  step V (HttpError request error) w = Some w1 →
  observable (this w1) = observable (this w)
  ∧ (∃ message, message ∈ generic_messages
       ∧ effects w1 = effects w ++ [SnackBarOpen message "Close" 3000])
  ∧ (∀ m w0, m = M_sendOtp ∨ m = M_verifyOtp ∨ m = M_resetPassword →
             w = call m w0 →
             observable (this w1) = observable (this w0)
             ∧ ∃ message, message ∈ generic_messages
                 ∧ effects w1 = effects w0 ++ [SnackBarOpen message "Close" 3000]).
Proof.
  intros Hs. cbn in Hs.
  destruct (inFlight w !! request) as [r|]; [|done]. injection Hs as <-.
  assert (observable (this ((http_complete request;; on_error r error) w))
          = observable (this w)) as Hobs by (by destruct r).
  assert (∃ message, message ∈ generic_messages
            ∧ effects ((http_complete request;; on_error r error) w)
              = effects w ++ [SnackBarOpen message "Close" 3000]) as Hmsg.
  { unfold generic_messages.
    destruct r; eexists; (split; [|reflexivity]); set_solver. }
  split; [done|]. split; [done|].
  intros m w0 Hm ->. rewrite Hobs.
  destruct Hmsg as (message & Hin & ->).
  assert (observable (this (call m w0)) = observable (this w0)
          ∧ effects (call m w0) = effects w0) as [-> ->].
  { destruct Hm as [->|[->| ->]]; cbn.
    - unfold sendOtp, seq. by case_match.
    - done.
    - unfold resetPassword. by case_match. }
  split; [done|]. by exists message.
Qed.

Lemma C9_witness :
  step Scenario.V (HttpError 0 "503 Service Unavailable")
       (call M_verifyOtp (constructor Scenario.V))
  = Some (Scenario.world_after [UserCall M_verifyOtp; HttpError 0 "503 Service Unavailable"])
  ∧ observable (this (Scenario.world_after
                        [UserCall M_verifyOtp; HttpError 0 "503 Service Unavailable"]))
    = observable (this (constructor Scenario.V)).
Proof.
  assert (step Scenario.V (HttpError 0 "503 Service Unavailable")
            (call M_verifyOtp (constructor Scenario.V))
          = Some (Scenario.world_after
                    [UserCall M_verifyOtp; HttpError 0 "503 Service Unavailable"]))
    as Hs by (vm_compute; reflexivity).
  split; [exact Hs|].
  destruct (C9_failure_keeps_state Scenario.V _ _ _ _ Hs) as (_ & _ & Hcall).
  exact (proj1 (Hcall M_verifyOtp (constructor Scenario.V)
                  (or_intror (or_introl eq_refl)) eq_refl)).
Defined.

(** * Further properties of the component *)

(** ** What the guards let through *)

Section Requests.
Variable V : ValidatorLib.

Lemma email_control_valid v :
  control_invalid (setValue (email_validators V) v) = false →
  v ≠ "" ∧ emailValidator V v = [].
Proof.
  unfold control_invalid. cbn. rewrite app_nil_r.
  intros Hv%bool_decide_eq_false. apply dec_stable in Hv.
  apply app_eq_nil in Hv as [Hreq Hmail]. split; [|done].
  intros ->. by cbv in Hreq.
Qed.

Lemma password_control_valid v :
  control_invalid (setValue (password_validators V) v) = false →
  8 ≤ String.length v ∧ passwordValidator V v = [].
Proof.
  unfold control_invalid. cbn. rewrite app_nil_r.
  intros Hv%bool_decide_eq_false. apply dec_stable in Hv.
  apply app_eq_nil in Hv as [Hreq [Hmin Hpw]%app_eq_nil]. split; [|done].
  unfold Validators.required in Hreq. unfold Validators.minLength in Hmin.
  repeat case_decide; try done. lia.
Qed.

Lemma request_inv_constructor : request_inv V (constructor V).
Proof.
  split; try done.
  intros rid [r Hr]. cbn in Hr. by rewrite lookup_empty in Hr.
Qed.

(** Posting a validated request keeps the bookkeeping of the requests. *)
Lemma request_inv_post r w c :
  request_inv V w →
  email (emailForm c) = email (emailForm (this w)) →
  password (resetPasswordForm c) = password (resetPasswordForm (this w)) →
  request_validated V r →
  (isLoadingOtp c = true → is_SendOtp r ∨ isLoadingOtp (this w) = true) →
  request_inv V (mkWorld c (subscriptions w) (nextSubscription w)
                   (<[nextRequest w := r]> (inFlight w)) (S (nextRequest w))
                   (effects w)).
Proof.
  intros [He Hp Hf Hpo Hl] Hce Hcp Hr Hload.
  unfold email_validated, password_validated, requests_fresh in *.
  split; unfold email_validated, password_validated, requests_fresh; cbn.
  - by rewrite Hce.
  - by rewrite Hcp.
  - intros rid [Heq|Hold]%lookup_insert_is_Some; [lia|].
    destruct Hold as [_ Hold]. apply Hf in Hold. lia.
  - intros rid r' [[_ <-]|[_ Hold]]%lookup_insert_Some; [done|]. by eapply Hpo.
  - intros Hc. destruct (Hload Hc) as [Hsend|Hold].
    + destruct r; try done. exists (nextRequest w), email0.
      by rewrite lookup_insert_eq.
    + destruct (Hl Hold) as (rid & email0 & Hrid).
      exists rid, email0. rewrite lookup_insert_ne; [done|].
      assert (rid < nextRequest w) by (apply Hf; eauto). lia.
Qed.

(** A response leaves the other requests in flight. *)
Lemma request_inv_complete rid r w c :
  request_inv V w →
  inFlight w !! rid = Some r →
  email (emailForm c) = email (emailForm (this w)) →
  password (resetPasswordForm c) = password (resetPasswordForm (this w)) →
  (isLoadingOtp c = true → isLoadingOtp (this w) = true ∧ ¬ is_SendOtp r) →
  ∀ subs next effs,
    request_inv V (mkWorld c subs next (delete rid (inFlight w)) (nextRequest w) effs).
Proof.
  intros [He Hp Hf Hpo Hl] Hrid Hce Hcp Hload subs next effs.
  unfold email_validated, password_validated, requests_fresh in *.
  split; unfold email_validated, password_validated, requests_fresh; cbn.
  - by rewrite Hce.
  - by rewrite Hcp.
  - intros rid' [r' [_ Hr']%lookup_delete_Some]. apply Hf. eauto.
  - intros rid' r' [_ Hr']%lookup_delete_Some. by eapply Hpo.
  - intros Hc. destruct (Hload Hc) as [Hold Hnot].
    destruct (Hl Hold) as (rid' & email0 & Hrid').
    exists rid', email0. rewrite lookup_delete_ne; [done|].
    intros <-. rewrite Hrid in Hrid'. injection Hrid' as ->. by apply Hnot.
Qed.

(** Changing the component without touching the two controls, the loading
    flag or the requests keeps the invariant. *)
Lemma request_inv_frame w w' :
  request_inv V w →
  email (emailForm (this w')) = email (emailForm (this w)) →
  password (resetPasswordForm (this w')) = password (resetPasswordForm (this w)) →
  isLoadingOtp (this w') = isLoadingOtp (this w) →
  inFlight w' = inFlight w → nextRequest w' = nextRequest w →
  request_inv V w'.
Proof.
  intros [He Hp Hf Hpo Hl] Hce Hcp Hlo Hin Hnx.
  unfold email_validated, password_validated, requests_fresh in *.
  split; unfold email_validated, password_validated, requests_fresh;
    rewrite ?Hce, ?Hcp, ?Hlo, ?Hin, ?Hnx; done.
Qed.

Lemma request_inv_step e w w' :
  request_inv V w → step V e w = Some w' → request_inv V w'.
Proof.
  intros Hw Hs. destruct e as [f v|m|rid data|rid err|sub0]; cbn in Hs.
  - injection Hs as <-. destruct f.
    + destruct Hw as [He Hp Hf Hpo Hl]. by split.
    + by apply (request_inv_frame w).
    + destruct Hw as [He Hp Hf Hpo Hl]. by split.
    + by apply (request_inv_frame w).
  - injection Hs as <-. destruct m; cbn.
    + unfold sendOtp, seq.
      destruct (emailForm_invalid (emailForm (this w))) eqn:Hg; [done|].
      apply (request_inv_post _ w (set_isLoadingOtp true (this w)));
        [done|done|done| |by left].
      unfold emailForm_invalid in Hg. rewrite (rinv_email V w Hw) in Hg.
      by apply email_control_valid in Hg.
    + apply (request_inv_post _ w (this w)); try done. by right.
    + unfold resetPassword.
      destruct (resetPasswordForm_invalid (resetPasswordForm (this w))) eqn:Hg;
        [done|].
      apply (request_inv_post _ w (this w)); try done; [|by right].
      unfold resetPasswordForm_invalid in Hg.
      apply orb_false_elim in Hg as [Hg _].
      rewrite (rinv_password V w Hw) in Hg.
      by apply password_control_valid in Hg.
    + apply (request_inv_frame w); [done|..];
        unfold handleBackNavigation; by repeat case_match.
    + by apply (request_inv_frame w).
    + by apply (request_inv_frame w).
    + apply (request_inv_frame w); [done|..];
        unfold ngOnDestroy; by rewrite stopOtpTimer_unfold.
  - destruct (inFlight w !! rid) as [r|] eqn:Hr; [|done]. injection Hs as <-.
    destruct r; wsimpl.
    + by apply (request_inv_complete rid (SendOtp email0) w).
    + apply (request_inv_complete rid (VerifyOtp email0 otp0) w); try done.
      cbn. tauto.
    + apply (request_inv_complete rid
               (ResetPassword email0 newPassword confirmPassword0) w); try done.
      cbn. tauto.
  - destruct (inFlight w !! rid) as [r|] eqn:Hr; [|done]. injection Hs as <-.
    destruct r; wsimpl.
    + by apply (request_inv_complete rid (SendOtp email0) w).
    + apply (request_inv_complete rid (VerifyOtp email0 otp0) w); try done.
      cbn. tauto.
    + apply (request_inv_complete rid
               (ResetPassword email0 newPassword confirmPassword0) w); try done.
      cbn. tauto.
  - case_decide; [|done]. injection Hs as <-.
    apply (request_inv_frame w); [done|..];
      rewrite otpTimer_tick_unfold; by case_decide.
Qed.

Lemma request_inv_exec es : ∀ w w',
  request_inv V w → exec V es w = Some w' → request_inv V w'.
Proof.
  induction es as [|e es IH]; intros w w' Hw He; cbn in He.
  - by injection He as <-.
  - destruct (step V e w) as [w1|] eqn:Hs; [|done].
    eapply IH; [|exact He]. by eapply request_inv_step.
Qed.

Lemma reachable_request_inv w : reachable V w → request_inv V w.
Proof.
  intros [es He]. eapply request_inv_exec; [apply request_inv_constructor|done].
Qed.

End Requests.

(** Every request of [sendOtp] in flight carries a non-empty e-mail the
    e-mail validator accepts, and every request of [resetPassword] a
    password of at least eight characters the password validator accepts:
    the guards of the two methods let nothing else through.  (A request of
    [verifyOtp] carries whatever the code field holds.) *)
Theorem posted_requests_validated V w rid r :
  reachable V w → inFlight w !! rid = Some r →
  rid < nextRequest w
  ∧ match r with
    | SendOtp email => email ≠ "" ∧ emailValidator V email = []
    | VerifyOtp _ _ => True
    | ResetPassword _ newPassword _ =>
        8 ≤ String.length newPassword ∧ passwordValidator V newPassword = []
    end.
Proof.
  intros Hw Hr. destruct (reachable_request_inv V w Hw) as [_ _ Hf Hpo _].
  split; [apply Hf; eauto|]. apply (Hpo rid r Hr).
Qed.

Lemma posted_requests_validated_witness :
  reachable Scenario.V (Scenario.world_after Scenario.resend_in_flight)
  ∧ inFlight (Scenario.world_after Scenario.resend_in_flight) !! 1
    = Some (SendOtp "user@example.com")
  ∧ emailValidator Scenario.V "user@example.com" = [].
Proof.
  assert (reachable Scenario.V (Scenario.world_after Scenario.resend_in_flight)) as Hr.
  { exists Scenario.resend_in_flight. vm_compute. reflexivity. }
  assert (inFlight (Scenario.world_after Scenario.resend_in_flight) !! 1
          = Some (SendOtp "user@example.com")) as Hin
    by (vm_compute; reflexivity).
  split; [exact Hr|]. split; [exact Hin|].
  exact (proj2 (proj2 (posted_requests_validated Scenario.V _ 1 _ Hr Hin))).
Defined.

(** While [isLoadingOtp] is raised, a request of [sendOtp] is in flight. *)
Theorem loading_has_request V w :
  reachable V w → isLoadingOtp (this w) = true →
  ∃ rid email, inFlight w !! rid = Some (SendOtp email).
Proof. intros Hw. apply (rinv_loading V w (reachable_request_inv V w Hw)). Qed.

Lemma loading_has_request_witness :
  reachable Scenario.V (Scenario.world_after Scenario.resend_in_flight)
  ∧ isLoadingOtp (this (Scenario.world_after Scenario.resend_in_flight)) = true
  ∧ ∃ rid email,
      inFlight (Scenario.world_after Scenario.resend_in_flight) !! rid
      = Some (SendOtp email).
Proof.
  assert (reachable Scenario.V (Scenario.world_after Scenario.resend_in_flight)) as Hr.
  { exists Scenario.resend_in_flight. vm_compute. reflexivity. }
  assert (isLoadingOtp (this (Scenario.world_after Scenario.resend_in_flight)) = true)
    as Hl by (vm_compute; reflexivity).
  split; [exact Hr|]. split; [exact Hl|].
  exact (loading_has_request Scenario.V _ Hr Hl).
Defined.

(** With an empty e-mail field [sendOtp()] does nothing, and with a
    password field that is empty or shorter than eight characters
    [resetPassword()] does nothing, whatever the validators of the library
    say and whatever the other fields hold. *)
Theorem short_fields_stop_the_calls V w :
  reachable V w →
  (value (email (emailForm (this w))) = "" → sendOtp w = w)
  ∧ (String.length (value (password (resetPasswordForm (this w)))) < 8 →
     resetPassword w = w).
Proof.
  intros Hw. destruct (reachable_request_inv V w Hw) as [He Hp _ _ _].
  split.
  - intros Hv. unfold sendOtp, emailForm_invalid. rewrite He, Hv. done.
  - intros Hv. unfold resetPassword, resetPasswordForm_invalid. rewrite Hp.
    set (v := value (password (resetPasswordForm (this w)))) in *.
    assert (control_invalid (setValue (password_validators V) v) = true) as ->; [|done].
    unfold control_invalid. apply bool_decide_eq_true. cbn.
    unfold Validators.required, Validators.minLength.
    repeat case_decide; done.
Qed.

Lemma short_fields_stop_the_calls_witness :
  reachable Scenario.V (Scenario.world_after Scenes.short_password_typed)
  ∧ resetPassword (Scenario.world_after Scenes.short_password_typed)
    = Scenario.world_after Scenes.short_password_typed.
Proof.
  assert (reachable Scenario.V (Scenario.world_after Scenes.short_password_typed))
    as Hr.
  { exists Scenes.short_password_typed. vm_compute. reflexivity. }
  assert (String.length
            (value (password (resetPasswordForm
                      (this (Scenario.world_after Scenes.short_password_typed))))) < 8)
    as Hlen by (vm_compute; lia).
  split; [exact Hr|].
  destruct (short_fields_stop_the_calls Scenario.V _ Hr) as [_ Hpw].
  exact (Hpw Hlen).
Defined.

(** ** The countdown *)

(** In every reachable state [remainingTime] lies between 0 and 60 and
    [otpTimer] is 60. *)
Theorem remainingTime_bounds V w :
  reachable V w →
  (0 ≤ remainingTime (this w) ≤ 60)%Z ∧ otpTimer (this w) = 60%Z.
Proof. intros Hw. by destruct (reachable_timer_inv V w Hw). Qed.

Lemma remainingTime_bounds_witness :
  reachable Scenario.V (Scenario.world_after Scenario.countdown_at_zero)
  ∧ (0 ≤ remainingTime (this (Scenario.world_after Scenario.countdown_at_zero)) ≤ 60)%Z.
Proof.
  assert (reachable Scenario.V (Scenario.world_after Scenario.countdown_at_zero)) as Hr.
  { exists Scenario.countdown_at_zero. vm_compute. reflexivity. }
  split; [exact Hr|].
  exact (proj1 (remainingTime_bounds Scenario.V _ Hr)).
Defined.

Lemma exec_app V es1 es2 w :
  exec V (es1 ++ es2) w = exec V es1 w ≫= exec V es2.
Proof.
  revert w. induction es1 as [|e es1 IH]; intros w; cbn; [done|].
  destruct (step V e w) as [w1|]; cbn; [apply IH|done].
Qed.

(** [n] ticks of a live run, with at least [n] seconds left, only count
    down. *)
Lemma ticks_count_down V sub n : ∀ w,
  sub ∈ subscriptions w → (Z.of_nat n ≤ remainingTime (this w))%Z →
  ∃ w', exec V (replicate n (IntervalTick sub)) w = Some w'
        ∧ remainingTime (this w') = (remainingTime (this w) - Z.of_nat n)%Z
        ∧ otpSubscription (this w') = otpSubscription (this w)
        ∧ resendOtpDisabled (this w') = resendOtpDisabled (this w)
        ∧ currentStep (this w') = currentStep (this w)
        ∧ subscriptions w' = subscriptions w.
Proof.
  induction n as [|n IH]; intros w Hsub Hn.
  - exists w. cbn. repeat split; try done. lia.
  - cbn [replicate exec step]. rewrite decide_True by done. cbn.
    rewrite otpTimer_tick_unfold, decide_True by lia.
    set (w1 := upd (set_remainingTime (remainingTime (this w) - 1)) w).
    destruct (IH w1) as (w' & He & Hr & Ho & Hd & Hc & Hs); [done|cbn; lia|].
    exists w'. cbn in Hr. repeat split; try done. lia.
Qed.

(** A running countdown expires on its own.  From a reachable state whose
    timer is active with [remainingTime] at [r], [n <= r] ticks leave
    [r - n] seconds, the timer active, the resend flag set and the step as
    it is; one tick more than [r] stops the timer, clears the flag and
    leaves [remainingTime] at 0 and the step as it is, and after that the
    run cannot tick. *)
Theorem countdown_expires V w sub :
  reachable V w → otpSubscription (this w) = Some sub →
  (∀ n, (Z.of_nat n ≤ remainingTime (this w))%Z →
     ∃ w', exec V (replicate n (IntervalTick sub)) w = Some w'
           ∧ remainingTime (this w') = (remainingTime (this w) - Z.of_nat n)%Z
           ∧ otpSubscription (this w') = Some sub
           ∧ resendOtpDisabled (this w') = true
           ∧ currentStep (this w') = currentStep (this w))
  ∧ (∃ w', exec V (replicate (S (Z.to_nat (remainingTime (this w))))
                     (IntervalTick sub)) w = Some w'
           ∧ remainingTime (this w') = 0%Z
           ∧ otpSubscription (this w') = None
           ∧ resendOtpDisabled (this w') = false
           ∧ currentStep (this w') = currentStep (this w)
           ∧ subscriptions w' = ∅
           ∧ step V (IntervalTick sub) w' = None).
Proof.
  intros Hw Hsub. destruct (reachable_timer_inv V w Hw) as [Hl Ha Hr Ht Hm].
  assert (sub ∈ subscriptions w) as Hin by (rewrite Hl, Hsub; cbn; set_solver).
  assert (resendOtpDisabled (this w) = true) as Hon by (apply Hr; eauto).
  split.
  - intros n Hn.
    destruct (ticks_count_down V sub n w Hin Hn) as (w' & He & ? & Ho & Hd & ? & _).
    exists w'. by rewrite Ho, Hd in *.
  - set (n := Z.to_nat (remainingTime (this w))).
    destruct (ticks_count_down V sub n w Hin) as (w1 & He & Hr1 & Ho & Hd & Hc & Hs);
      [lia|].
    replace (S n) with (n + 1) by lia.
    rewrite replicate_add, exec_app, He. cbn.
    rewrite decide_True by (by rewrite Hs).
    rewrite otpTimer_tick_unfold, decide_False by lia. cbn.
    eexists. split; [reflexivity|]. cbn.
    assert (subscriptions w1 ∖ from_option singleton ∅ (otpSubscription (this w1)) = ∅)
      as Hempty.
    { rewrite Hs, Ho, Hl, Hsub. cbn. set_solver. }
    repeat split; try done.
    + lia.
    + rewrite Hempty. by rewrite decide_False by set_solver.
Qed.

Lemma countdown_expires_witness :
  reachable Scenario.V (Scenario.world_after Scenario.otp_requested)
  ∧ otpSubscription (this (Scenario.world_after Scenario.otp_requested)) = Some 0
  ∧ ∃ w', exec Scenario.V
            (replicate
               (S (Z.to_nat (remainingTime
                               (this (Scenario.world_after Scenario.otp_requested)))))
               (IntervalTick 0))
            (Scenario.world_after Scenario.otp_requested) = Some w'
          ∧ remainingTime (this w') = 0%Z
          ∧ otpSubscription (this w') = None
          ∧ resendOtpDisabled (this w') = false
          ∧ currentStep (this w')
            = currentStep (this (Scenario.world_after Scenario.otp_requested))
          ∧ subscriptions w' = ∅
          ∧ step Scenario.V (IntervalTick 0) w' = None.
Proof.
  assert (reachable Scenario.V (Scenario.world_after Scenario.otp_requested)) as Hr.
  { exists Scenario.otp_requested. vm_compute. reflexivity. }
  assert (otpSubscription (this (Scenario.world_after Scenario.otp_requested)) = Some 0)
    as Hsub by (vm_compute; reflexivity).
  split; [exact Hr|]. split; [exact Hsub|].
  exact (proj2 (countdown_expires Scenario.V _ 0 Hr Hsub)).
Defined.

(** [stopOtpTimer()] is idempotent, does nothing when no timer is held, and
    otherwise changes nothing but [otpSubscription] and the subscription it
    cancels. *)
Theorem stopOtpTimer_idempotent w :
  stopOtpTimer (stopOtpTimer w) = stopOtpTimer w
  ∧ (otpSubscription (this w) = None → stopOtpTimer w = w)
  ∧ otpSubscription (this (stopOtpTimer w)) = None
  ∧ this (stopOtpTimer w) = set_otpSubscription None (this w)
  ∧ (∀ sub, sub ∈ subscriptions (stopOtpTimer w) ↔
            sub ∈ subscriptions w ∧ otpSubscription (this w) ≠ Some sub)
  ∧ inFlight (stopOtpTimer w) = inFlight w
  ∧ effects (stopOtpTimer w) = effects w.
Proof.
  split; [|split].
  - rewrite !stopOtpTimer_unfold. cbn. f_equal. set_solver.
  - unfold stopOtpTimer. by intros ->.
  - rewrite stopOtpTimer_unfold. cbn. repeat split; try done.
    + destruct (otpSubscription (this w)); cbn in *; set_solver.
    + destruct (otpSubscription (this w)); cbn in *; set_solver.
    + intros [? ?]. destruct (otpSubscription (this w)); cbn; set_solver.
Qed.

(** ** The visibility toggles *)

(** Each toggle undoes itself when called twice, the two toggles commute,
    and each flips its own flag and leaves the other one alone. *)
Theorem toggles_are_involutions w :
  togglePasswordVisibility (togglePasswordVisibility w) = w
  ∧ toggleConfirmPasswordVisibility (toggleConfirmPasswordVisibility w) = w
  ∧ togglePasswordVisibility (toggleConfirmPasswordVisibility w)
    = toggleConfirmPasswordVisibility (togglePasswordVisibility w)
  ∧ passwordVisible (this (togglePasswordVisibility w))
    = negb (passwordVisible (this w))
  ∧ confirmPasswordVisible (this (togglePasswordVisibility w))
    = confirmPasswordVisible (this w)
  ∧ confirmPasswordVisible (this (toggleConfirmPasswordVisibility w))
    = negb (confirmPasswordVisible (this w))
  ∧ passwordVisible (this (toggleConfirmPasswordVisibility w))
    = passwordVisible (this w).
Proof.
  unfold togglePasswordVisibility, toggleConfirmPasswordVisibility.
  destruct w as [c subs nsub infl nreq effs]. destruct c. cbn.
  unfold upd, set_passwordVisible, set_confirmPasswordVisible. cbn.
  rewrite !negb_involutive. done.
Qed.

(** ** The password message *)

(** [getErrorMessage()] shows nothing for an untouched or a valid password
    control.  For a touched control in a reachable state, an empty
    password gives the "required" message, and a non-empty password shorter
    than eight characters gives the length message, whatever the rules of
    the password validator it also breaks (as long as that validator does
    not itself report [required]). *)
Theorem getErrorMessage_password V w :
  reachable V w →
  getErrorMessage false (this w) = ""
  ∧ (control_invalid (password (resetPasswordForm (this w))) = false →
     getErrorMessage true (this w) = "")
  ∧ (value (password (resetPasswordForm (this w))) = "" →
     getErrorMessage true (this w) = "Password is required.")
  ∧ (0 < String.length (value (password (resetPasswordForm (this w)))) < 8 →
     "required" ∉ passwordValidator V (value (password (resetPasswordForm (this w)))) →
     getErrorMessage true (this w)
     = "Password must be at least 8 characters long.").
Proof.
  intros Hw. destruct (reachable_request_inv V w Hw) as [_ Hp _ _ _].
  unfold password_validated in Hp. unfold getErrorMessage.
  split; [done|]. split; [by intros ->|].
  set (v := value (password (resetPasswordForm (this w)))) in *.
  rewrite Hp. clearbody v. split.
  - intros ->. done.
  - intros Hlen Hnot. unfold control_invalid, has_error. cbn.
    unfold Validators.required, Validators.minLength.
    destruct (decide (String.length v = 0)); [lia|].
    destruct (decide (String.length v < 8)); [|lia]. cbn.
    rewrite app_nil_r.
    rewrite (bool_decide_eq_false_2 ("required" ∈ _)) by set_solver.
    by rewrite (bool_decide_eq_true_2 ("minlength" ∈ _)) by set_solver.
Qed.

Lemma getErrorMessage_password_witness :
  reachable Scenario.V (Scenario.world_after Scenes.short_password_typed)
  ∧ getErrorMessage true (this (Scenario.world_after Scenes.short_password_typed))
    = "Password must be at least 8 characters long.".
Proof.
  assert (reachable Scenario.V (Scenario.world_after Scenes.short_password_typed))
    as Hr.
  { exists Scenes.short_password_typed. vm_compute. reflexivity. }
  assert (0 < String.length
                (value (password (resetPasswordForm
                   (this (Scenario.world_after Scenes.short_password_typed))))) < 8)
    as Hlen by (vm_compute; lia).
  assert ("required"
          ∉ passwordValidator Scenario.V
              (value (password (resetPasswordForm
                 (this (Scenario.world_after Scenes.short_password_typed))))))
    as Hnot.
  { assert (passwordValidator Scenario.V
              (value (password (resetPasswordForm
                 (this (Scenario.world_after Scenes.short_password_typed))))) = [])
      as -> by (vm_compute; reflexivity).
    apply not_elem_of_nil. }
  split; [exact Hr|].
  destruct (getErrorMessage_password Scenario.V _ Hr) as (_ & _ & _ & Hshort).
  exact (Hshort Hlen Hnot).
Defined.

(** ** What moves the workflow *)

(** The step flags are raised by successful responses only: [isOtpVerified]
    by a response to a request of [verifyOtp], and [isOtpSent] by a
    response to a request of [sendOtp] or by going back from the verified
    step.  No call, failure, tick or typing raises them. *)
Theorem step_flags_raised_by_success V e w w' :
  step V e w = Some w' →
  (isOtpVerified (this w) = false → isOtpVerified (this w') = true →
   ∃ rid data email otp,
     e = HttpNext rid data ∧ inFlight w !! rid = Some (VerifyOtp email otp))
  ∧ (isOtpSent (this w) = false → isOtpSent (this w') = true →
     (∃ rid data email,
        e = HttpNext rid data ∧ inFlight w !! rid = Some (SendOtp email))
     ∨ (e = UserCall M_handleBackNavigation ∧ isOtpVerified (this w) = true)).
Proof.
  intros Hs. destruct e as [f v|m|rid data|rid err|sub0]; cbn in Hs.
  - injection Hs as <-. destruct f; cbn; split; congruence.
  - injection Hs as <-.
    destruct m; wsimpl; repeat case_match; cbn; split; try congruence.
    intros _ _. by right.
  - destruct (inFlight w !! rid) as [r|] eqn:Hr; [|done]. injection Hs as <-.
    destruct r; wsimpl; split; try congruence.
    + intros _ _. left. by exists rid, data, email0.
    + intros _ _. by exists rid, data, email0, otp0.
  - destruct (inFlight w !! rid) as [r|] eqn:Hr; [|done]. injection Hs as <-.
    destruct r; wsimpl; split; congruence.
  - case_decide; [|done]. injection Hs as <-.
    wsimpl. case_decide; cbn; split; congruence.
Qed.

Lemma step_flags_raised_by_success_witness :
  step Scenario.V (HttpNext 0 "OTP sent")
       (Scenario.world_after [UserInput EmailField "user@example.com";
                              UserCall M_sendOtp])
  = Some (Scenario.world_after Scenario.otp_requested)
  ∧ ∃ rid data email,
      HttpNext 0 "OTP sent" = HttpNext rid data
      ∧ inFlight (Scenario.world_after [UserInput EmailField "user@example.com";
                                        UserCall M_sendOtp]) !! rid
        = Some (SendOtp email).
Proof.
  assert (step Scenario.V (HttpNext 0 "OTP sent")
            (Scenario.world_after [UserInput EmailField "user@example.com";
                                   UserCall M_sendOtp])
          = Some (Scenario.world_after Scenario.otp_requested)) as Hs
    by (vm_compute; reflexivity).
  assert (isOtpSent (this (Scenario.world_after
                             [UserInput EmailField "user@example.com";
                              UserCall M_sendOtp])) = false) as H0
    by (vm_compute; reflexivity).
  assert (isOtpSent (this (Scenario.world_after Scenario.otp_requested)) = true)
    as H1 by (vm_compute; reflexivity).
  split; [exact Hs|].
  destruct (step_flags_raised_by_success Scenario.V _ _ _ Hs) as [_ Hsent].
  destruct (Hsent H0 H1) as [Hok|[Hback _]]; [exact Hok|discriminate Hback].
Defined.

(** The record of messages only grows, and the component navigates to
    [/login] on two occasions only: going back from the first step, and a
    successful response to a request of [resetPassword].  Every snack-bar
    message has the action [Close] and lasts 3000 ms. *)
Theorem navigation_only_on_exit V e w w' :
  step V e w = Some w' →
  ∃ new, effects w' = effects w ++ new
    ∧ (∀ path, RouterNavigate path ∈ new →
         path = "/login"
         ∧ ((e = UserCall M_handleBackNavigation
             ∧ currentStep (this w) = EnteringEmail)
            ∨ ∃ rid data email newPassword confirm,
                e = HttpNext rid data
                ∧ inFlight w !! rid
                  = Some (ResetPassword email newPassword confirm)))
    ∧ (∀ message action duration,
         SnackBarOpen message action duration ∈ new →
         action = "Close" ∧ duration = 3000%Z).
Proof.
  intros Hs. destruct e as [f v|m|rid data|rid err|sub0]; cbn in Hs.
  - injection Hs as <-. exists []. rewrite app_nil_r.
    destruct f; cbn; (split; [done|]); split; intros *; set_solver.
  - injection Hs as <-.
    destruct m; wsimpl; unfold currentStep;
      repeat (case_match; cbn);
      try (exists []; rewrite app_nil_r; (split; [done|]);
           split; intros *; set_solver).
    exists [RouterNavigate "/login"]. split; [done|].
    split; intros *; [|set_solver].
    intros [=->]%list_elem_of_singleton. split; [done|]. by left.
  - destruct (inFlight w !! rid) as [r|] eqn:Hr; [|done]. injection Hs as <-.
    destruct r; wsimpl.
    + exists [SnackBarOpen data "Close" 3000]. split; [done|].
      split; intros *; [set_solver|]. by intros [=-> -> ->]%list_elem_of_singleton.
    + exists [SnackBarOpen data "Close" 3000]. split; [done|].
      split; intros *; [set_solver|]. by intros [=-> -> ->]%list_elem_of_singleton.
    + exists [SnackBarOpen data "Close" 3000; RouterNavigate "/login"].
      split; [by rewrite <- app_assoc|]. split; intros *.
      * intros Hin. assert (path = "/login") as -> by set_solver.
        split; [done|]. right. by exists rid, data, email0, newPassword, confirmPassword0.
      * intros Hin. assert (SnackBarOpen message action duration
                            = SnackBarOpen data "Close" 3000) as [= -> -> ->]
          by set_solver. done.
  - destruct (inFlight w !! rid) as [r|] eqn:Hr; [|done]. injection Hs as <-.
    destruct r; wsimpl; eexists [_]; (split; [done|]);
      (split; intros *; [set_solver|]);
      by intros [=-> -> ->]%list_elem_of_singleton.
  - case_decide; [|done]. injection Hs as <-.
    wsimpl. exists []. rewrite app_nil_r.
    case_decide; cbn; (split; [done|]); split; intros *; set_solver.
Qed.

Lemma navigation_only_on_exit_witness :
  step Scenario.V (UserCall M_handleBackNavigation) (constructor Scenario.V)
  = Some (handleBackNavigation (constructor Scenario.V))
  ∧ ∃ new,
      effects (handleBackNavigation (constructor Scenario.V))
      = effects (constructor Scenario.V) ++ new.
Proof.
  assert (step Scenario.V (UserCall M_handleBackNavigation) (constructor Scenario.V)
          = Some (handleBackNavigation (constructor Scenario.V))) as Hs
    by reflexivity.
  split; [exact Hs|].
  destruct (navigation_only_on_exit Scenario.V _ _ _ Hs) as (new & Hnew & _).
  exists new. exact Hnew.
Defined.

(** A successful response to a request of [verifyOtp] moves to the
    verified step, stops the countdown for good and freezes
    [remainingTime] and [resendOtpDisabled] at the values they have; it
    shows the message of the service. *)
Theorem verifyOtp_success_freezes_timer V w rid data email_sent otp_sent w' :
  reachable V w →
  inFlight w !! rid = Some (VerifyOtp email_sent otp_sent) →
  step V (HttpNext rid data) w = Some w' →
  currentStep (this w') = OtpVerified
  ∧ remainingTime (this w') = remainingTime (this w)
  ∧ resendOtpDisabled (this w') = resendOtpDisabled (this w)
  ∧ otpSubscription (this w') = None
  ∧ subscriptions w' = ∅
  ∧ (∀ sub, step V (IntervalTick sub) w' = None)
  ∧ effects w' = effects w ++ [SnackBarOpen data "Close" 3000]
  ∧ inFlight w' = delete rid (inFlight w).
Proof.
  intros Hw Hr Hs. destruct (reachable_timer_inv V w Hw) as [Hl _ _ _ _].
  cbn in Hs. rewrite Hr in Hs. injection Hs as <-. wsimpl.
  assert (subscriptions w ∖ from_option singleton ∅ (otpSubscription (this w)) = ∅)
    as Hempty.
  { rewrite Hl. destruct (otpSubscription (this w)); cbn; set_solver. }
  rewrite Hempty. repeat split; done.
Qed.

Lemma verifyOtp_success_freezes_timer_witness :
  reachable Scenario.V
    (Scenario.world_after (Scenario.otp_typed ++ [UserCall M_verifyOtp]))
  ∧ step Scenario.V (HttpNext 1 "OTP verified")
         (Scenario.world_after (Scenario.otp_typed ++ [UserCall M_verifyOtp]))
    = Some (Scenario.world_after
              (Scenario.otp_typed
               ++ [UserCall M_verifyOtp; HttpNext 1 "OTP verified"]))
  ∧ currentStep
      (this (Scenario.world_after
               (Scenario.otp_typed
                ++ [UserCall M_verifyOtp; HttpNext 1 "OTP verified"])))
    = OtpVerified.
Proof.
  assert (reachable Scenario.V
            (Scenario.world_after (Scenario.otp_typed ++ [UserCall M_verifyOtp])))
    as Hr.
  { exists (Scenario.otp_typed ++ [UserCall M_verifyOtp]). vm_compute. reflexivity. }
  assert (inFlight (Scenario.world_after (Scenario.otp_typed ++ [UserCall M_verifyOtp]))
            !! 1 = Some (VerifyOtp "user@example.com" "000000")) as Hin
    by (vm_compute; reflexivity).
  assert (step Scenario.V (HttpNext 1 "OTP verified")
            (Scenario.world_after (Scenario.otp_typed ++ [UserCall M_verifyOtp]))
          = Some (Scenario.world_after
                    (Scenario.otp_typed
                     ++ [UserCall M_verifyOtp; HttpNext 1 "OTP verified"]))) as Hs
    by (vm_compute; reflexivity).
  split; [exact Hr|]. split; [exact Hs|].
  exact (proj1 (verifyOtp_success_freezes_timer Scenario.V _ _ _ _ _ _ Hr Hin Hs)).
Defined.

(** A countdown is started by a successful response to a request of
    [sendOtp] and by nothing else: no other event gives the component a
    subscription it did not hold, or asks rxjs for one. *)
Theorem timer_started_by_sendOtp_success V e w w' :
  step V e w = Some w' →
  nextSubscription w' ≠ nextSubscription w
  ∨ (is_Some (otpSubscription (this w'))
     ∧ otpSubscription (this w') ≠ otpSubscription (this w)) →
  ∃ rid data email,
    e = HttpNext rid data ∧ inFlight w !! rid = Some (SendOtp email)
    ∧ otpSubscription (this w') = Some (nextSubscription w)
    ∧ nextSubscription w' = S (nextSubscription w)
    ∧ remainingTime (this w') = otpTimer (this w).
Proof.
  intros Hs. destruct e as [f v|m|rid data|rid err|sub0]; cbn in Hs.
  - injection Hs as <-. destruct f; cbn; intros [?|[_ ?]]; done.
  - injection Hs as <-.
    destruct m; wsimpl; repeat case_match; cbn; intros [?|[Hsome ?]]; try done;
      by destruct Hsome.
  - destruct (inFlight w !! rid) as [r|] eqn:Hr; [|done]. injection Hs as <-.
    destruct r; wsimpl.
    + intros _. by exists rid, data, email0.
    + intros [?|[Hsome ?]]; try done; by destruct Hsome.
    + intros [?|[_ ?]]; done.
  - destruct (inFlight w !! rid) as [r|] eqn:Hr; [|done]. injection Hs as <-.
    destruct r; wsimpl; intros [?|[_ ?]]; done.
  - case_decide; [|done]. injection Hs as <-.
    wsimpl. case_decide; cbn; intros [?|[Hsome ?]]; try done;
      by destruct Hsome.
Qed.

Lemma timer_started_by_sendOtp_success_witness :
  step Scenario.V (HttpNext 1 "OTP sent again")
       (Scenario.world_after Scenario.resend_in_flight)
  = Some (Scenario.world_after
            (Scenario.resend_in_flight ++ [HttpNext 1 "OTP sent again"]))
  ∧ nextSubscription
      (Scenario.world_after
         (Scenario.resend_in_flight ++ [HttpNext 1 "OTP sent again"]))
    ≠ nextSubscription (Scenario.world_after Scenario.resend_in_flight)
  ∧ ∃ rid data email,
      HttpNext 1 "OTP sent again" = HttpNext rid data
      ∧ inFlight (Scenario.world_after Scenario.resend_in_flight) !! rid
        = Some (SendOtp email).
Proof.
  assert (step Scenario.V (HttpNext 1 "OTP sent again")
            (Scenario.world_after Scenario.resend_in_flight)
          = Some (Scenario.world_after
                    (Scenario.resend_in_flight ++ [HttpNext 1 "OTP sent again"])))
    as Hs by (vm_compute; reflexivity).
  assert (nextSubscription
            (Scenario.world_after
               (Scenario.resend_in_flight ++ [HttpNext 1 "OTP sent again"]))
          ≠ nextSubscription (Scenario.world_after Scenario.resend_in_flight))
    as Hne by (vm_compute; discriminate).
  split; [exact Hs|]. split; [exact Hne|].
  destruct (timer_started_by_sendOtp_success Scenario.V _ _ _ Hs (or_introl Hne))
    as (rid & data & email0 & He & Hin & _).
  exists rid, data, email0. split; [exact He|exact Hin].
Defined.
